(** * DE-server: the AI-server gateway of [pdfController] and the mail helpers

    A shallow embedding of
    - the PDF controller (module-level [AI_SERVER_URL], the per-user cookie
      map [userCookies], [getAiAxiosForUser] and the handlers [uploadPDF],
      [queryPDF] and [clearVectorData]),
    - the OTP model's [pre('save')] hook, and
    - [utils/mailSender.js] ([createTransporter], [mailSender]).

    JavaScript values are an inductive type with the language's truthiness,
    the [userCookies] Map is a [gmap string string], exceptions are explicit
    results, and everything a handler does to the outside world (clients
    built, requests transmitted, mails handed to SMTP) is recorded in a
    trace.  [console.*] output is diagnostic only and is not modelled. *)

From Stdlib Require Import ZArith List Bool Ascii String Lia.
From stdpp Require Import base option gmap strings pretty.
Import ListNotations.

Set Warnings "-register-all".

Open Scope string_scope.
Open Scope Z_scope.
Open Scope list_scope.

(** ** JavaScript strings *)

Module JsString.

(** [s.startsWith(p)], the building block of the two searches below. *)
Fixpoint starts_with (p s : string) : bool :=
  match p, s with
  | EmptyString, _ => true
  | String _ _, EmptyString => false
  | String a p', String b s' => if Ascii.eqb a b then starts_with p' s' else false
  end.

(** [s.includes(p)]. *)
Fixpoint includes (s p : string) : bool :=
  if starts_with p s then true
  else match s with
       | EmptyString => false
       | String _ s' => includes s' p
       end.

Fixpoint drop (n : nat) (s : string) : string :=
  match n, s with
  | O, _ => s
  | S _, EmptyString => EmptyString
  | S n', String _ s' => drop n' s'
  end.

(** [s.replace(pat, rep)] with a string pattern: only the first occurrence
    is replaced ([rep] holds no [$] here, so it is inserted as it is). *)
Fixpoint replace (s pat rep : string) : string :=
  if starts_with pat s then rep +:+ drop (String.length pat) s
  else match s with
       | EmptyString => EmptyString
       | String c s' => String c (replace s' pat rep)
       end.

(** [arr.join(sep)] on an array of strings. *)
Fixpoint join (sep : string) (l : list string) : string :=
  match l with
  | [] => ""
  | [x] => x
  | x :: rest => x +:+ sep +:+ join sep rest
  end.

(** [s.length]: the number of UTF-16 code units of a string held as UTF-8
    bytes.  A continuation byte adds nothing, the lead byte of a four-byte
    sequence adds the two units of a surrogate pair, every other byte adds
    one. *)
Definition utf16_units (c : ascii) : nat :=
  let n := nat_of_ascii c in
  (if n <? 128 then 1 else if n <? 192 then 0 else if n <? 240 then 1 else 2)%nat.

Fixpoint utf16_length (s : string) : nat :=
  match s with
  | EmptyString => O
  | String c s' => (utf16_units c + utf16_length s')%nat
  end.

(** A string is truthy unless it is empty. *)
Definition truthy (s : string) : bool :=
  match s with EmptyString => false | String _ _ => true end.

End JsString.

(** ** JavaScript values, as JSON bodies and request fields carry them *)

Inductive jsval : Type :=
| JUndefined
| JNull
| JBool (b : bool)
| JNum (n : Z)
| JStr (s : string)
| JArr (items : list jsval)
| JObj (fields : list (string * jsval)).

(** [!!v]. *)
Definition truthy (v : jsval) : bool :=
  match v with
  | JUndefined | JNull => false
  | JBool b => b
  | JNum n => negb (n =? 0)
  | JStr s => JsString.truthy s
  | JArr _ | JObj _ => true
  end.

Fixpoint assoc (k : string) (fields : list (string * jsval)) : jsval :=
  match fields with
  | [] => JUndefined
  | (k', v) :: rest => if String.eqb k k' then v else assoc k rest
  end.

(** [v?.k] for the property names the handlers read ([message], [error],
    [success], [data], [answer], [conversation_history]); none of them is
    defined on a string, number, boolean or array.  Wherever the source
    writes the plain [v.k], [v] has just been tested truthy, so the two
    agree. *)
Definition prop (v : jsval) (k : string) : jsval :=
  match v with
  | JObj fields => assoc k fields
  | _ => JUndefined
  end.

(** [a || b]. *)
Definition js_or (a b : jsval) : jsval := if truthy a then a else b.

Infix "|||" := js_or (at level 50, left associativity).

(** [String(v)], used where a value ends up as the message of [new Error]. *)
Fixpoint to_string (v : jsval) : string :=
  match v with
  | JUndefined => "undefined"
  | JNull => "null"
  | JBool true => "true"
  | JBool false => "false"
  | JNum n => pretty n
  | JStr s => s
  | JArr items =>
      JsString.join ","
        (map (fun x => match x with
                       | JUndefined | JNull => ""
                       | _ => to_string x
                       end) items)
  | JObj _ => "[object Object]"
  end.

(** ** Environment and the upstream base address (part_000, lines 11-17) *)

Record environment := {
  env_AI_SERVER_URL : option string;
  env_NODEMAILER_USER : option string;
  env_NODEMAILER_PASS : option string
}.

(** [process.env.X || dflt]: an unset or empty variable gives the default. *)
Definition env_or (x : option string) (dflt : string) : string :=
  match x with
  | Some s => if JsString.truthy s then s else dflt
  | None => dflt
  end.

Definition default_url : string := "http://127.0.0.1:5000".

(** Line 11: the configured address. *)
Definition configured_url (env : environment) : string :=
  env_or (env_AI_SERVER_URL env) default_url.

(** Lines 14-17: the address the module ends up with. *)
Definition AI_SERVER_URL (env : environment) : string :=
  let url := configured_url env in
  if JsString.includes url "localhost:5000"
  then JsString.replace url "localhost" "127.0.0.1"
  else url.

(** ** HTTP exchanges as axios presents them *)

(** A response header as Node hands it over: a string, or an array of
    strings ([set-cookie] is always an array there). *)
Inductive header_value : Type :=
| HStr (s : string)
| HArr (items : list string).

Definition header_truthy (h : header_value) : bool :=
  match h with
  | HStr s => JsString.truthy s
  | HArr _ => true
  end.

Record response := {
  status : Z;
  data : jsval;
  headers : gmap string header_value
}.

(** What becomes of one call handed to axios: a response arrives; the
    request is transmitted and no response arrives; or axios gives up
    before transmitting anything (a base address it cannot use, for
    one). *)
Inductive net_outcome : Type :=
| NetResponse (r : response)
| NetNoResponse (message : string) (code : option string)
| NetNotSent (message : string) (code : option string).

(** Whether the request got onto the wire. *)
Definition transmitted (o : net_outcome) : bool :=
  match o with
  | NetNotSent _ _ => false
  | _ => true
  end.

(** What a handler can catch: an axios error (with [error.response] when a
    response arrived and [error.request] when the request was transmitted),
    or any other [Error], which has neither. *)
Record error := {
  err_message : string;
  err_code : option string;
  err_response : option response;
  err_request : bool
}.

Definition plain_error (msg : string) : error :=
  {| err_message := msg; err_code := None; err_response := None; err_request := false |}.

(** axios's default [validateStatus], which the controller never overrides:
    a response resolves the promise when its status is 2xx and rejects it
    otherwise. *)
Definition validateStatus (st : Z) : bool := (200 <=? st) && (st <? 300).

Definition bad_status_code (st : Z) : string :=
  if (400 <=? st) && (st <? 500) then "ERR_BAD_REQUEST" else "ERR_BAD_RESPONSE".

Inductive settled : Type :=
| Fulfilled (r : response)
| Rejected (e : error).

Definition settle (o : net_outcome) : settled :=
  match o with
  | NetResponse r =>
      if validateStatus (status r) then Fulfilled r
      else Rejected {| err_message := "Request failed with status code " +:+ pretty (status r);
                       err_code := Some (bad_status_code (status r));
                       err_response := Some r;
                       err_request := true |}
  | NetNoResponse msg code =>
      Rejected {| err_message := msg; err_code := code;
                  err_response := None; err_request := true |}
  | NetNotSent msg code =>
      Rejected {| err_message := msg; err_code := code;
                  err_response := None; err_request := false |}
  end.

(** ** The session store and [getAiAxiosForUser] (part_000, lines 22-83) *)

(** Request headers of one outgoing call. *)
Definition req_headers := gmap string string.

(** Lines 43-48: the cookie string of a [set-cookie] header. *)
Definition cookieString (h : header_value) : string :=
  match h with
  | HArr items => JsString.join "; " items
  | HStr s => s
  end.

(** Lines 41-52: the fulfilled handler of the response interceptor. *)
Definition on_fulfilled (userId : string) (userCookies : gmap string string)
    (r : response) : gmap string string :=
  match headers r !! "set-cookie" with
  | Some h => if header_truthy h then <[userId := cookieString h]> userCookies
              else userCookies
  | None => userCookies
  end.

(** Lines 53-69: the rejected handler only logs and rejects again. *)
Definition on_rejected (userId : string) (userCookies : gmap string string)
    (e : error) : gmap string string :=
  userCookies.

(** Lines 73-80: the request interceptor. *)
Definition on_request (userId : string) (userCookies : gmap string string)
    (hs : req_headers) : req_headers :=
  match userCookies !! userId with
  | Some cookies => if JsString.truthy cookies then <["Cookie" := cookies]> hs else hs
  | None => hs
  end.

(** The response interceptor as a whole, applied to what the network gave. *)
Definition on_response (userId : string) (userCookies : gmap string string)
    (o : net_outcome) : gmap string string :=
  match settle o with
  | Fulfilled r => on_fulfilled userId userCookies r
  | Rejected e => on_rejected userId userCookies e
  end.

(** Lines 30-37: the instance defaults. *)
Record client_config := {
  baseURL : string;
  withCredentials : bool;
  timeout : Z;
  default_headers : req_headers
}.

Definition axios_create (env : environment) : client_config :=
  {| baseURL := AI_SERVER_URL env;
     withCredentials := true;
     timeout := 60000;
     default_headers := {["Accept" := "application/json"]} |}.

(** What a call hands to axios: path, per-call headers merged over the
    instance defaults, body and timeout. *)
Inductive payload : Type :=
| NoBody
| Multipart (field filename path contentType : string)
| FormUrlEncoded (pairs : list (string * string)).

Record outgoing := {
  out_path : string;
  out_headers : req_headers;
  out_payload : payload;
  out_timeout : Z
}.

(** ** Interleaved exchanges

    Node runs each interceptor to completion, so concurrent handlers
    interleave at the granularity of whole hook runs: a request hook reads
    the store and the request goes out; later the answer arrives and the
    response hook runs.  A schedule is any list of such steps. *)

Inductive hook_event : Type :=
| Transmit (userId : string) (rq : outgoing)
| Receive (userId : string) (o : net_outcome).

Definition event_user (ev : hook_event) : string :=
  match ev with
  | Transmit u _ => u
  | Receive u _ => u
  end.

Record gateway := {
  userCookies : gmap string string;
  (** every request put on the wire, oldest first, with the user it is for *)
  wire : list (string * outgoing)
}.

(** Line 22: [new Map()]. *)
Definition gateway_init : gateway := {| userCookies := ∅; wire := [] |}.

Definition intercept_request (userId : string) (cookies : gmap string string)
    (rq : outgoing) : outgoing :=
  {| out_path := out_path rq;
     out_headers := on_request userId cookies (out_headers rq);
     out_payload := out_payload rq;
     out_timeout := out_timeout rq |}.

Definition hook_step (g : gateway) (ev : hook_event) : gateway :=
  match ev with
  | Transmit u rq =>
      {| userCookies := userCookies g;
         wire := wire g ++ [(u, intercept_request u (userCookies g) rq)] |}
  | Receive u o =>
      {| userCookies := on_response u (userCookies g) o;
         wire := wire g |}
  end.

Definition run_hooks (g : gateway) (evs : list hook_event) : gateway :=
  fold_left hook_step evs g.

Definition wire_of (u : string) (g : gateway) : list outgoing :=
  map snd (List.filter (fun x => String.eqb (fst x) u) (wire g)).

Definition events_of (u : string) (evs : list hook_event) : list hook_event :=
  List.filter (fun ev => String.eqb (event_user ev) u) evs.

(** The credential a [Receive] step writes, if it writes one. *)
Definition captured (o : net_outcome) : option string :=
  match settle o with
  | Fulfilled r =>
      match headers r !! "set-cookie" with
      | Some h => if header_truthy h then Some (cookieString h) else None
      | None => None
      end
  | Rejected _ => None
  end.

(** The [Cookie] header a request went out with. *)
Definition cookie_sent (rq : outgoing) : option string := out_headers rq !! "Cookie".

(** ** The record store

    The Mongoose models [../models/PDF] and [../models/QueryHistory] are
    not among the sources; the controller only supplies and reads the
    fields below. *)

Record pdf_doc := {
  pdf_id : string;
  pdf_filename : string;
  pdf_originalname : string;
  pdf_path : string;
  pdf_user : string
}.

Record query_doc := {
  qh_question : jsval;
  qh_answer : jsval;
  qh_user : string;
  qh_pdf : jsval
}.

(** Modelled from the spec: [PDF.findOne({ _id, user })] of the absent
    [../models/PDF].  The record store returns plain records and has no
    logic of its own: the stored document with that id and that owner, or
    nothing. *)
Definition PDF_findOne (pdfs : list pdf_doc) (id : jsval) (user : string) : option pdf_doc :=
  match id with
  | JStr i => List.find (fun p => String.eqb (pdf_id p) i && String.eqb (pdf_user p) user) pdfs
  | _ => None
  end.

(** Modelled from the spec: [pdf.save()] of the absent [../models/PDF]
    persists the record. *)
Definition PDF_save (pdfs : list pdf_doc) (doc : pdf_doc) : list pdf_doc := pdfs ++ [doc].

(** Modelled from the spec: [queryHistory.save()] of the absent
    [../models/QueryHistory] persists the history record. *)
Definition QueryHistory_save (hist : list query_doc) (doc : query_doc) : list query_doc :=
  hist ++ [doc].

(** ** The handlers of [pdfController] *)

Record world := {
  gw : gateway;
  (** one entry per call of [getAiAxiosForUser] *)
  built : list (string * client_config);
  pdfs : list pdf_doc;
  queries : list query_doc
}.

Record upload_file := {
  file_filename : string;
  file_originalname : string;
  file_path : string
}.

Record request := {
  req_user : string;               (* req.user._id *)
  req_file : option upload_file;   (* req.file *)
  req_body : jsval                 (* req.body *)
}.

Record http_result := {
  res_status : Z;
  res_body : jsval
}.

(** [res.status(st).json(body)] and the plain [res.json(body)]. *)
Definition reply (st : Z) (body : list (string * jsval)) : http_result :=
  {| res_status := st; res_body := JObj body |}.

Definition reply_ok (body : list (string * jsval)) : http_result := reply 200 body.

Definition with_gw (w : world) (g : gateway) : world :=
  {| gw := g; built := built w; pdfs := pdfs w; queries := queries w |}.

(** [a || b || ''] on response headers (line 159). *)
Definition header_or (a : option header_value) (b : header_value) : header_value :=
  match a with
  | Some h => if header_truthy h then h else b
  | None => b
  end.

Definition serverHeader (hs : gmap string header_value) : header_value :=
  header_or (hs !! "server") (header_or (hs !! "Server") (HStr "")).

(** [.includes(x)]: a substring test on a string, a membership test on an
    array. *)
Definition header_includes (h : header_value) (x : string) : bool :=
  match h with
  | HStr s => JsString.includes s x
  | HArr items => existsb (String.eqb x) items
  end.

(** Line 160. *)
Definition isAirPlay (hs : gmap string header_value) : bool :=
  header_includes (serverHeader hs) "AirTunes" || header_includes (serverHeader hs) "AirPlay".

Definition port_conflict_body : list (string * jsval) :=
  [ ("error", JStr "Port 5000 conflict detected: macOS AirPlay Receiver is intercepting requests.");
    ("details", JStr "On macOS, localhost:5000 is used by AirPlay Receiver. Please use 127.0.0.1:5000 instead, or disable AirPlay Receiver in System Settings > General > AirDrop & Handoff.");
    ("solution", JStr "Set AI_SERVER_URL=http://127.0.0.1:5000 in your .env file or environment variables.") ].

Definition is_string (v : jsval) : bool :=
  match v with JStr _ => true | _ => false end.

(** [error.response.status || 500] (lines 276 and 309). *)
Definition status_or_500 (st : Z) : Z := if st =? 0 then 500 else st.

(** [const { question, pdfId } = req.body] throws a [TypeError] on a body
    that is [undefined] or [null]; the result is the message of that error. *)
Definition destructure_error (body : jsval) : option string :=
  match body with
  | JUndefined => Some "Cannot destructure property 'question' of 'req.body' as it is undefined."
  | JNull => Some "Cannot destructure property 'question' of 'req.body' as it is null."
  | _ => None
  end.

Section Handlers.

(** The process environment the module was loaded in. *)
Variable env : environment.
(** The [_id] Mongoose gives a newly constructed PDF document. *)
Variable new_ObjectId : list pdf_doc -> string.
(** The multipart boundary [form-data] picks for [getHeaders()]. *)
Variable form_boundary : string.

(** Lines 28-83: a fresh instance per call, wired to the shared
    [userCookies]. *)
Definition getAiAxiosForUser (userId : string) (w : world) : world * client_config :=
  let aiAxios := axios_create env in
  ({| gw := gw w; built := built w ++ [(userId, aiAxios)];
      pdfs := pdfs w; queries := queries w |}, aiAxios).

(** [await aiAxios.post(...)]: request interceptor, transmission, then the
    response interceptor on whatever came back.  When axios gives up
    before transmitting, the request interceptor has run but nothing is on
    the wire. *)
Definition post (userId : string) (aiAxios : client_config) (rq : outgoing)
    (net : net_outcome) (g : gateway) : gateway * settled :=
  let merged := {| out_path := out_path rq;
                   out_headers := out_headers rq ∪ default_headers aiAxios;
                   out_payload := out_payload rq;
                   out_timeout := out_timeout rq |} in
  let g1 := if transmitted net then hook_step g (Transmit userId merged) else g in
  (hook_step g1 (Receive userId net), settle net).

(** Lines 141-215: the [catch] block of [uploadPDF]. *)
Definition upload_catch (e : error) : http_result :=
  match err_response e with
  | Some r =>
      let errorData := data r in
      if status r =? 403 then
        if isAirPlay (headers r) then reply 503 port_conflict_body
        else reply 503
               [ ("error", JStr "AI server access denied. Please ensure the AI server is running and properly configured.");
                 ("details", prop errorData "message" ||| JStr "Forbidden - Check AI server configuration") ]
      else if status r =? 400 then
        reply 400
          [ ("error", prop errorData "message" ||| errorData ||| JStr "Invalid request to AI server") ]
      else if status r =? 500 then
        reply 502
          [ ("error", JStr "AI server internal error. Please try again later.");
            ("details", prop errorData "message" ||| JStr "Internal server error on AI server") ]
      else
        let fallbackMessage :=
          if is_string errorData then errorData
          else prop errorData "message" ||| prop errorData "error" ||| JStr "Error from AI server" in
        reply (if 500 <=? status r then 502 else status r) [ ("error", fallbackMessage) ]
  | None =>
      if err_request e then
        reply 503
          [ ("error", JStr ("Unable to connect to AI server. Please ensure the AI server is running on "
                            +:+ AI_SERVER_URL env));
            ("details", JStr (if bool_decide (err_code e = Some "ECONNREFUSED")
                              then "Connection refused - AI server may not be running"
                              else err_message e)) ]
      else
        reply 500 [ ("error", JStr ("Error uploading PDF: " +:+ err_message e)) ]
  end.

(** Lines 87-216. *)
Definition uploadPDF (w : world) (req : request) (net : net_outcome) : world * http_result :=
  match req_file req with
  | None => (w, reply 400 [ ("error", JStr "No PDF file uploaded") ])
  | Some f =>
      let userId := req_user req in
      let '(w1, aiAxios) := getAiAxiosForUser userId w in
      let rq := {| out_path := "/upload";
                   out_headers := {["content-type" := "multipart/form-data; boundary=" +:+ form_boundary]};
                   out_payload := Multipart "pdf_files" (file_originalname f) (file_path f) "application/pdf";
                   out_timeout := 120000 |} in
      let '(g2, r) := post userId aiAxios rq net (gw w1) in
      let w2 := with_gw w1 g2 in
      match r with
      | Fulfilled resp =>
          if negb (truthy (data resp)) || negb (truthy (prop (data resp) "success")) then
            (w2, upload_catch
                   (plain_error (to_string (prop (data resp) "message"
                                            ||| JStr "AI server returned unsuccessful response"))))
          else
            let savedPdf := {| pdf_id := new_ObjectId (pdfs w2);
                               pdf_filename := file_filename f;
                               pdf_originalname := file_originalname f;
                               pdf_path := file_path f;
                               pdf_user := req_user req |} in
            ({| gw := gw w2; built := built w2;
                pdfs := PDF_save (pdfs w2) savedPdf; queries := queries w2 |},
             reply_ok
               [ ("message", JStr "PDF uploaded successfully");
                 ("data", JObj [ ("_id", JStr (pdf_id savedPdf));
                                 ("filename", JStr (pdf_filename savedPdf));
                                 ("originalname", JStr (pdf_originalname savedPdf)) ]);
                 ("aiResponse", data resp) ])
      | Rejected e => (w2, upload_catch e)
      end
  end.

(** Lines 272-285 and 305-318: the [catch] blocks of [queryPDF] and
    [clearVectorData] differ only in the prefix of the last message. *)
Definition passthrough_catch (prefix : string) (e : error) : http_result :=
  match err_response e with
  | Some r =>
      reply (status_or_500 (status r))
        [ ("error", prop (data r) "message" ||| prop (data r) "error" ||| JStr "Error from AI server") ]
  | None =>
      if err_request e then
        reply 503 [ ("error", JStr "Unable to connect to AI server. Please ensure the AI server is running.") ]
      else
        reply 500 [ ("error", JStr (prefix +:+ err_message e)) ]
  end.

Definition query_catch : error -> http_result := passthrough_catch "Error processing query: ".
Definition clear_catch : error -> http_result := passthrough_catch "Error clearing vector data: ".

(** Line 253: the envelope test. *)
Definition bad_envelope (d : jsval) : bool :=
  negb (truthy d) || negb (truthy (prop d "success")) || negb (truthy (prop d "data")).

(** Lines 219-286. *)
Definition queryPDF (w : world) (req : request) (net : net_outcome) : world * http_result :=
  match destructure_error (req_body req) with
  | Some msg => (w, query_catch (plain_error msg))
  | None =>
      let question := prop (req_body req) "question" in
      let pdfId := prop (req_body req) "pdfId" in
      if negb (truthy question) then
        (w, reply 400 [ ("error", JStr "Question is required") ])
      else if negb (truthy pdfId) then
        (w, reply 400 [ ("error", JStr "PDF ID is required") ])
      else
        match PDF_findOne (pdfs w) pdfId (req_user req) with
        | None => (w, reply 404 [ ("error", JStr "PDF not found or not authorized") ])
        | Some _ =>
            let userId := req_user req in
            let '(w1, aiAxios) := getAiAxiosForUser userId w in
            let rq := {| out_path := "/query";
                         out_headers := {["Content-Type" := "application/x-www-form-urlencoded"]};
                         out_payload := FormUrlEncoded [ ("query", to_string question) ];
                         out_timeout := timeout aiAxios |} in
            let '(g2, r) := post userId aiAxios rq net (gw w1) in
            let w2 := with_gw w1 g2 in
            match r with
            | Fulfilled resp =>
                if bad_envelope (data resp) then
                  (w2, reply 500
                         [ ("error", prop (data resp) "message" ||| JStr "Invalid response from AI server") ])
                else
                  let answer := prop (prop (data resp) "data") "answer" in
                  let queryHistory := {| qh_question := question; qh_answer := answer;
                                         qh_user := req_user req; qh_pdf := pdfId |} in
                  ({| gw := gw w2; built := built w2; pdfs := pdfs w2;
                      queries := QueryHistory_save (queries w2) queryHistory |},
                   reply_ok
                     [ ("answer", answer);
                       ("conversation_history",
                        prop (prop (data resp) "data") "conversation_history") ])
            | Rejected e => (w2, query_catch e)
            end
        end
  end.

(** Lines 289-319. *)
Definition clearVectorData (w : world) (req : request) (net : net_outcome) : world * http_result :=
  let userId := req_user req in
  let '(w1, aiAxios) := getAiAxiosForUser userId w in
  let rq := {| out_path := "/clear-vector-data"; out_headers := ∅;
               out_payload := NoBody; out_timeout := timeout aiAxios |} in
  let '(g2, r) := post userId aiAxios rq net (gw w1) in
  let w2 := with_gw w1 g2 in
  match r with
  | Fulfilled resp =>
      (w2, reply_ok [ ("message", JStr "Vector data cleared successfully");
                      ("data", data resp) ])
  | Rejected e => (w2, clear_catch e)
  end.

(** The three operations that talk to the AI server. *)
Inductive operation : Type := SubmitArtifact | SubmitQuestion | Reset.

Definition handler (op : operation) : world -> request -> net_outcome -> world * http_result :=
  match op with
  | SubmitArtifact => uploadPDF
  | SubmitQuestion => queryPDF
  | Reset => clearVectorData
  end.

End Handlers.

(** ** The OTP schema's email validators (part_001, lines 6-11) *)

Module Pattern.

(** Regular expressions without captures or look-around, which is all the
    schema's pattern uses. *)
Inductive regex : Type :=
| Never
| Empty
| Class (p : ascii -> bool)
| Seq (a b : regex)
| Or (a b : regex)
| Star (a : regex).

Fixpoint nullable (r : regex) : bool :=
  match r with
  | Never => false
  | Empty => true
  | Class _ => false
  | Seq a b => nullable a && nullable b
  | Or a b => nullable a || nullable b
  | Star _ => true
  end.

(** What is left of [r] after reading [c]. *)
Fixpoint derive (c : ascii) (r : regex) : regex :=
  match r with
  | Never => Never
  | Empty => Never
  | Class p => if p c then Empty else Never
  | Seq a b =>
      if nullable a then Or (Seq (derive c a) b) (derive c b)
      else Seq (derive c a) b
  | Or a b => Or (derive c a) (derive c b)
  | Star a => Seq (derive c a) (Star a)
  end.

(** [/^r$/.test(s)]: the whole of [s] is read. *)
Fixpoint test (r : regex) (s : string) : bool :=
  match s with
  | EmptyString => nullable r
  | String c s' => test (derive c r) s'
  end.

(** [r+], [r?] and a literal character. *)
Definition plus (r : regex) : regex := Seq r (Star r).
Definition opt (r : regex) : regex := Or Empty r.
Definition lit (c : ascii) : regex := Class (Ascii.eqb c).

(** [\w]: a letter, a digit or the underscore. *)
Definition word_char (c : ascii) : bool :=
  let n := nat_of_ascii c in
  ((48 <=? n) && (n <=? 57) || (65 <=? n) && (n <=? 90)
   || (97 <=? n) && (n <=? 122) || (n =? 95))%nat.

(** [[.-]]. *)
Definition separator (c : ascii) : bool := Ascii.eqb c "." || Ascii.eqb c "-".

Definition w : regex := Class word_char.

(** [\w+([.-]?\w+)*] *)
Definition labels : regex := Seq (plus w) (Star (Seq (opt (Class separator)) (plus w))).

(** [\.\w{2,3}] *)
Definition suffix : regex := Seq (lit ".") (Seq w (Seq w (opt w))).

(** Line 9: [/^\w+([.-]?\w+)*@\w+([.-]?\w+)*(\.\w{2,3})+$/]. *)
Definition email : regex := Seq labels (Seq (lit "@") (Seq labels (plus suffix))).

End Pattern.

(** Lines 8-9: Mongoose's [required] refuses the empty string, and its
    [match] lets the empty string through and tests every other one
    against the pattern. *)
Definition otp_email_valid (v : string) : bool :=
  JsString.truthy v && (negb (JsString.truthy v) || Pattern.test Pattern.email v).

(** ** Mail: [utils/mailSender.js] and the OTP model's [pre('save')] hook *)

Module Mail.

(** A rejection coming out of nodemailer. *)
Record failure := {
  f_message : string;
  f_code : option string;
  f_responseCode : option Z
}.

Definition thrown (msg : string) : failure :=
  {| f_message := msg; f_code := None; f_responseCode := None |}.

Record mail := {
  mail_from : string;
  mail_to : string;
  mail_subject : string;
  mail_content : string
}.

(** What the SMTP side does when asked: the answer to [verify()] and to
    [sendMail(m)] (a message id on success). *)
Record smtp := {
  smtp_verify : option failure;
  smtp_sendMail : mail -> failure + string
}.

(** What reaches nodemailer, in order. *)
Inductive smtp_event : Type :=
| CreateTransport (user pass : string)
| Verify
| SendMail (m : mail)
| Close.

(** [!process.env.X]. *)
Definition unset (x : option string) : bool :=
  match x with
  | Some s => negb (JsString.truthy s)
  | None => true
  end.

Definition credentials_missing (env : environment) : bool :=
  unset (env_NODEMAILER_USER env) || unset (env_NODEMAILER_PASS env).

Definition env_string (x : option string) : string := default "undefined" x.

Definition dquote : string := String "034"%char "".

(** The sender line ["<name>" <user>]. *)
Definition sender (name : string) (env : environment) : string :=
  dquote +:+ name +:+ dquote +:+ " <" +:+ env_string (env_NODEMAILER_USER env) +:+ ">".

(** mailSender.js, lines 8-40: the transporter, or the error thrown. *)
Definition createTransporter (env : environment) : failure + list smtp_event :=
  if credentials_missing env then
    inl (thrown "Email configuration missing: NODEMAILER_USER and NODEMAILER_PASS must be set")
  else
    inr [CreateTransport (env_string (env_NODEMAILER_USER env))
                         (env_string (env_NODEMAILER_PASS env))].

(** Line 53. *)
Definition invalid_email (email : jsval) : bool :=
  match email with
  | JStr s => negb (JsString.truthy s) || negb (JsString.includes s "@")
  | _ => true
  end.

Definition code_is (e : failure) (c : string) : bool := bool_decide (f_code e = Some c).

(** Lines 73-91: the [catch] block, which always throws again; the result
    is the message of the error thrown. *)
Definition rethrow (e : failure) : string :=
  if code_is e "ENOTFOUND" || code_is e "EDNS" then
    "Network error: Unable to connect to email server. Please check your internet connection."
  else if code_is e "ETIMEDOUT" || code_is e "ECONNREFUSED" then
    "Connection error: Unable to reach email server. Please try again later."
  else if bool_decide (f_responseCode e = Some 535) then
    "Email authentication failed. Please check email configuration."
  else
    "Failed to send email: " +:+ f_message e.

(** Lines 49-98.  The result is the message id of the mail sent, or the
    message of the [Error] the promise is rejected with, next to what was
    asked of nodemailer. *)
Definition mailSender (env : environment) (net : smtp) (email : jsval)
    (subject body : string) : (string + string) * list smtp_event :=
  if invalid_email email then
    (inl (rethrow (thrown "Invalid email address")), [])
  else
    match createTransporter env with
    | inl e => (inl (rethrow e), [])
    | inr created =>
        match smtp_verify net with
        | Some e => (inl (rethrow e), (created ++ [Verify; Close])%list)
        | None =>
            let m := {| mail_from := sender "PDF Q&A" env;
                        mail_to := to_string email;
                        mail_subject := subject;
                        mail_content := body |} in
            match smtp_sendMail net m with
            | inl e => (inl (rethrow e), (created ++ [Verify; SendMail m; Close])%list)
            | inr messageId => (inr messageId, (created ++ [Verify; SendMail m; Close])%list)
            end
        end
    end.

(** The OTP document of part_001. *)
Record otp_doc := {
  otp_email : string;
  otp_otp : string
}.

(** How a [pre('save')] hook hands control back. *)
Inductive next_call : Type :=
| Next
| NextWithError (msg : string).

(** part_001, lines 25-88.  The mail is recorded with its [text]
    alternative; the [html] one carries the same code in markup. *)
Definition otp_pre_save (env : environment) (net : smtp) (isNew : bool)
    (doc : otp_doc) : next_call * list smtp_event :=
  if isNew then
    if credentials_missing env then (Next, [])
    else
      let m := {| mail_from := sender "AskMyFile" env;
                  mail_to := otp_email doc;
                  mail_subject := "Your OTP Code";
                  mail_content := "Your OTP is " +:+ otp_otp doc +:+ " (valid for 5 minutes)" |} in
      let evs := [CreateTransport (env_string (env_NODEMAILER_USER env))
                                  (env_string (env_NODEMAILER_PASS env));
                  SendMail m] in
      match smtp_sendMail net m with
      | inr _ => (Next, evs)
      | inl _ => (Next, evs)   (* caught and logged: creation is not blocked *)
      end
  else (Next, []).

(** part_001, lines 6-9: the validators of [email], in the order Mongoose
    runs them; the first that fails gives the path's error. *)
Definition email_error (v : string) : option string :=
  if negb (JsString.truthy v) then Some "Email is required"
  else if Pattern.test Pattern.email v then None
  else Some "Invalid email".

(** part_001, lines 12-16: [required], then [minlength] 6. *)
Definition otp_error (v : string) : option string :=
  if negb (JsString.truthy v) then Some "OTP is required"
  else if (JsString.utf16_length v <? 6)%nat then Some "OTP must be 6 characters long"
  else None.

(** The validation errors of a document, by path. *)
Definition validate (doc : otp_doc) : list (string * string) :=
  match email_error (otp_email doc) with Some m => [("email", m)] | None => [] end
  ++ match otp_error (otp_otp doc) with Some m => [("otp", m)] | None => [] end.

(** Why a creation is refused. *)
Inductive create_error : Type :=
| ValidationFailed (errors : list (string * string))
| HookFailed (msg : string)
| DuplicateKey (email : string).

(** [OTP.create(doc)].  Mongoose validates the new document against the
    schema first and stops there if a validator fails; then it runs the
    [pre('save')] hook, and writes the document once the hook has called
    [next()] without an error.  The [unique] index of line 10 refuses a
    second document for the same address at that write.  The [expires]
    index of line 20 removes records with time and is not represented. *)
Definition OTP_create (env : environment) (net : smtp) (store : list otp_doc)
    (doc : otp_doc) : (create_error + list otp_doc) * list smtp_event :=
  match validate doc with
  | (_ :: _) as errors => (inl (ValidationFailed errors), [])
  | [] =>
      let '(n, evs) := otp_pre_save env net true doc in
      match n with
      | NextWithError msg => (inl (HookFailed msg), evs)
      | Next =>
          if existsb (fun d => String.eqb (otp_email d) (otp_email doc)) store
          then (inl (DuplicateKey (otp_email doc)), evs)
          else (inr (store ++ [doc])%list, evs)
      end
  end.

Definition is_send (ev : smtp_event) : bool :=
  match ev with SendMail _ => true | _ => false end.

End Mail.

(** ** The handlers that only use the record store (part_000, lines 321-400)

    Their [catch] blocks answer 500 when the database call itself throws;
    the store below does not fail, so those blocks are not reached. *)

(** What Express knows of the request line: [req.protocol] and
    [req.get('host')]. *)
Record origin := {
  req_protocol : string;
  req_host : option string
}.

(** Lines 332 and 361: the template literal; an absent host prints as
    [undefined]. *)
Definition fileUrl (o : origin) (filename : string) : string :=
  req_protocol o +:+ "://" +:+ default "undefined" (req_host o) +:+ "/uploads/" +:+ filename.

(** Modelled from the spec: [pdf._doc] after [.select('-path')] of the
    absent [../models/PDF], as the fields the controller itself writes
    (artifact identifier, file names, owning user) without the server
    path. *)
Definition pdf_public (p : pdf_doc) : list (string * jsval) :=
  [ ("_id", JStr (pdf_id p));
    ("filename", JStr (pdf_filename p));
    ("originalname", JStr (pdf_originalname p));
    ("user", JStr (pdf_user p)) ].

(** Modelled from the spec: [PDF.find({ user }).sort({ createdAt: -1 })] of
    the absent [../models/PDF].  The store keeps documents in the order
    [save] added them, so newest first is that order reversed. *)
Definition PDF_find (pdfs : list pdf_doc) (user : string) : list pdf_doc :=
  rev (List.filter (fun p => String.eqb (pdf_user p) user) pdfs).

(** Modelled from the spec: [PDF.deleteOne({ _id })] of the absent
    [../models/PDF] removes one document with that id. *)
Fixpoint PDF_deleteOne (pdfs : list pdf_doc) (id : string) : list pdf_doc :=
  match pdfs with
  | [] => []
  | p :: rest => if String.eqb (pdf_id p) id then rest else p :: PDF_deleteOne rest id
  end.

(** A history record whose [pdf] reference is [id]. *)
Definition refers_to (id : string) (q : query_doc) : bool :=
  match qh_pdf q with
  | JStr i => String.eqb i id
  | _ => false
  end.

(** Modelled from the spec: [QueryHistory.deleteMany({ pdf })] of the
    absent [../models/QueryHistory] removes every record with that
    reference. *)
Definition QueryHistory_deleteMany (hist : list query_doc) (id : string) : list query_doc :=
  List.filter (fun q => negb (refers_to id q)) hist.

Definition with_file_url (o : origin) (p : pdf_doc) : jsval :=
  JObj (pdf_public p ++ [ ("fileUrl", JStr (fileUrl o (pdf_filename p))) ]).

(** Lines 322-343. *)
Definition getAllPDFs (w : world) (req : request) (o : origin) : world * http_result :=
  let found := PDF_find (pdfs w) (req_user req) in
  let pdfsWithUrls := map (with_file_url o) found in
  (w, reply_ok [ ("count", JNum (Z.of_nat (length pdfsWithUrls)));
                 ("pdfs", JArr pdfsWithUrls) ]).

(** Lines 346-371; [id] is [req.params.id]. *)
Definition getPDFById (w : world) (req : request) (id : string) (o : origin)
    : world * http_result :=
  match PDF_findOne (pdfs w) (JStr id) (req_user req) with
  | None => (w, reply 404 [ ("error", JStr "PDF not found or not authorized") ])
  | Some pdf => (w, reply_ok [ ("pdf", with_file_url o pdf) ])
  end.

(** Lines 373-400; [id] is [req.params.id].  The third component lists the
    paths handed to [fs.unlink]. *)
Definition deletePDF (w : world) (req : request) (id : string)
    : world * http_result * list string :=
  match PDF_findOne (pdfs w) (JStr id) (req_user req) with
  | None => (w, reply 404 [ ("error", JStr "PDF not found or not authorized") ], [])
  | Some pdf =>
      ({| gw := gw w; built := built w;
          pdfs := PDF_deleteOne (pdfs w) id;
          queries := QueryHistory_deleteMany (queries w) id |},
       reply_ok [ ("message", JStr "PDF deleted successfully") ],
       [pdf_path pdf])
  end.

(** ** [queryPDF] around its upstream call

    [queryPDF] hands control back at [await aiAxios.post(...)] (line 244),
    and other handlers run before the answer arrives.  The two definitions
    are the handler up to that point and from it on, for a request that is
    transmitted. *)

(** What the suspended handler holds on to. *)
Record query_in_flight := {
  qf_question : jsval;
  qf_pdfId : jsval;
  qf_user : string
}.

(** Lines 220-248: validation, ownership check, client, request
    interceptor, transmission. *)
Definition queryPDF_until_post (env : environment) (w : world) (req : request)
    : world * (http_result + query_in_flight) :=
  match destructure_error (req_body req) with
  | Some msg => (w, inl (query_catch (plain_error msg)))
  | None =>
      let question := prop (req_body req) "question" in
      let pdfId := prop (req_body req) "pdfId" in
      if negb (truthy question) then
        (w, inl (reply 400 [ ("error", JStr "Question is required") ]))
      else if negb (truthy pdfId) then
        (w, inl (reply 400 [ ("error", JStr "PDF ID is required") ]))
      else
        match PDF_findOne (pdfs w) pdfId (req_user req) with
        | None => (w, inl (reply 404 [ ("error", JStr "PDF not found or not authorized") ]))
        | Some _ =>
            let userId := req_user req in
            let '(w1, aiAxios) := getAiAxiosForUser env userId w in
            let rq := {| out_path := "/query";
                         out_headers := {["Content-Type" := "application/x-www-form-urlencoded"]}
                                        ∪ default_headers aiAxios;
                         out_payload := FormUrlEncoded [ ("query", to_string question) ];
                         out_timeout := timeout aiAxios |} in
            (with_gw w1 (hook_step (gw w1) (Transmit userId rq)),
             inr {| qf_question := question; qf_pdfId := pdfId; qf_user := userId |})
        end
  end.

(** Lines 250-285: response interceptor, envelope test, history record,
    answer; run in the world as it is when the answer arrives. *)
Definition queryPDF_after_post (w : world) (fl : query_in_flight) (net : net_outcome)
    : world * http_result :=
  let w2 := with_gw w (hook_step (gw w) (Receive (qf_user fl) net)) in
  match settle net with
  | Fulfilled resp =>
      if bad_envelope (data resp) then
        (w2, reply 500
               [ ("error", prop (data resp) "message" ||| JStr "Invalid response from AI server") ])
      else
        let answer := prop (prop (data resp) "data") "answer" in
        let queryHistory := {| qh_question := qf_question fl; qh_answer := answer;
                               qh_user := qf_user fl; qh_pdf := qf_pdfId fl |} in
        ({| gw := gw w2; built := built w2; pdfs := pdfs w2;
            queries := QueryHistory_save (queries w2) queryHistory |},
         reply_ok
           [ ("answer", answer);
             ("conversation_history",
              prop (prop (data resp) "data") "conversation_history") ])
  | Rejected e => (w2, query_catch e)
  end.

(** ** Specification vocabulary *)

(** [p] occurs in [s] as a substring. *)
Definition occurs_in (p s : string) : Prop :=
  exists pre post, s = pre +:+ p +:+ post.

(** [s] is [pre], then the leftmost occurrence of [p], then [post]. *)
Definition leftmost (p s pre post : string) : Prop :=
  s = pre +:+ p +:+ post /\
  forall pre' post', s = pre' +:+ p +:+ post' -> (String.length pre <= String.length pre')%nat.

(** Some response to an exchange of [u] in the schedule made the response
    hook write [c]. *)
Definition captured_for (u c : string) (evs : list hook_event) : Prop :=
  exists o, In (Receive u o) evs /\ captured o = Some c.

(** A step that does not write a credential for [u]. *)
Definition keeps (u : string) (ev : hook_event) : Prop :=
  match ev with
  | Receive v o => v = u -> captured o = None
  | Transmit _ _ => True
  end.

(** [queryPDF] gets past its validation: the body can be destructured,
    question and PDF id are truthy, and the PDF is the caller's. *)
Definition query_admitted (w : world) (req : request) : bool :=
  match destructure_error (req_body req) with
  | Some _ => false
  | None =>
      truthy (prop (req_body req) "question")
      && truthy (prop (req_body req) "pdfId")
      && bool_decide (is_Some (PDF_findOne (pdfs w) (prop (req_body req) "pdfId") (req_user req)))
  end.

(** The upstream answered with a well-formed success envelope: a resolved
    (2xx) response whose body has a truthy [success] and a truthy [data]. *)
Definition success_envelope (net : net_outcome) : bool :=
  match net with
  | NetResponse r =>
      validateStatus (status r)
      && truthy (prop (data r) "success")
      && truthy (prop (data r) "data")
  | NetNoResponse _ _ => false
  | NetNotSent _ _ => false
  end.

(** The caller-visible status of [uploadPDF] for an upstream error status,
    as a table. *)
Definition upload_caller_status (st : Z) : Z :=
  if st =? 403 then 503
  else if st =? 400 then 400
  else if 500 <=? st then 502
  else st.

(** The world after a handler built its client and ran one exchange; the
    request is on the wire unless axios gave up before transmitting. *)
Definition after_exchange (env : environment) (w : world) (userId : string)
    (sent : outgoing) (net : net_outcome) : world :=
  {| gw := {| userCookies := on_response userId (userCookies (gw w)) net;
              wire := wire (gw w) ++ (if transmitted net then [(userId, sent)] else []) |};
     built := built w ++ [(userId, axios_create env)];
     pdfs := pdfs w;
     queries := queries w |}.

(** Every history record refers to a stored PDF of the same user. *)
Definition history_refers (w : world) : Prop :=
  forall q, In q (queries w) ->
    exists p, In p (pdfs w) /\ qh_pdf q = JStr (pdf_id p) /\ pdf_user p = qh_user q.

(** No two stored PDFs share an id. *)
Definition unique_ids (w : world) : Prop := List.NoDup (map pdf_id (pdfs w)).

(** The credential written by the last step of the schedule that wrote one
    for [u]. *)
Fixpoint latest_capture (u : string) (evs : list hook_event) : option string :=
  match evs with
  | [] => None
  | ev :: rest =>
      match latest_capture u rest with
      | Some c => Some c
      | None =>
          match ev with
          | Receive v o => if String.eqb v u then captured o else None
          | Transmit _ _ => None
          end
      end
  end.

Definition is_transmit (ev : hook_event) : bool :=
  match ev with Transmit _ _ => true | Receive _ _ => false end.

(** The keys of a JSON object. *)
Definition keys_of (v : jsval) : list string :=
  match v with
  | JObj fields => map fst fields
  | _ => []
  end.

(** The upstream acknowledged an upload: a resolved (2xx) response whose
    body has a truthy [success]. *)
Definition upload_acknowledged (net : net_outcome) : bool :=
  match net with
  | NetResponse r => validateStatus (status r) && truthy (prop (data r) "success")
  | NetNoResponse _ _ => false
  | NetNotSent _ _ => false
  end.


(** The strings a regular expression denotes. *)
Inductive matches : Pattern.regex -> string -> Prop :=
| MEmpty : matches Pattern.Empty ""
| MClass (p : ascii -> bool) (c : ascii) :
    p c = true -> matches (Pattern.Class p) (String c "")
| MSeq (a b : Pattern.regex) (s t : string) :
    matches a s -> matches b t -> matches (Pattern.Seq a b) (s +:+ t)
| MOrL (a b : Pattern.regex) (s : string) :
    matches a s -> matches (Pattern.Or a b) s
| MOrR (a b : Pattern.regex) (s : string) :
    matches b s -> matches (Pattern.Or a b) s
| MStarNil (a : Pattern.regex) : matches (Pattern.Star a) ""
| MStarMore (a : Pattern.regex) (s t : string) :
    matches a s -> matches (Pattern.Star a) t -> matches (Pattern.Star a) (s +:+ t).

(** Every character of [s] satisfies [p]. *)
Fixpoint all_chars (p : ascii -> bool) (s : string) : bool :=
  match s with
  | EmptyString => true
  | String c s' => p c && all_chars p s'
  end.

(** Every character class of [r] lies within [p]. *)
Fixpoint classes_within (p : ascii -> bool) (r : Pattern.regex) : Prop :=
  match r with
  | Pattern.Class q => forall c, q c = true -> p c = true
  | Pattern.Seq a b | Pattern.Or a b => classes_within p a /\ classes_within p b
  | Pattern.Star a => classes_within p a
  | Pattern.Never | Pattern.Empty => True
  end.

(** The characters an accepted address is made of, and those of its parts. *)
Definition address_char (c : ascii) : bool :=
  Pattern.word_char c || Pattern.separator c || Ascii.eqb c "@".

Definition label_char (c : ascii) : bool := Pattern.word_char c || Pattern.separator c.

(** The failure carries none of the four network codes [mailSender]
    singles out. *)
Definition no_network_code (e : Mail.failure) : Prop :=
  Mail.f_code e <> Some "ENOTFOUND" /\ Mail.f_code e <> Some "EDNS" /\
  Mail.f_code e <> Some "ETIMEDOUT" /\ Mail.f_code e <> Some "ECONNREFUSED".


(** * Properties *)

(** ** String searches *)

Lemma starts_with_app (p post : string) : JsString.starts_with p (p +:+ post) = true.
Proof.
  induction p as [|a p IH]; simpl; [reflexivity|].
  rewrite Ascii.eqb_refl. exact IH.
Qed.

Lemma starts_with_inv (p s : string) :
  JsString.starts_with p s = true -> exists post, s = p +:+ post.
Proof.
  revert s. induction p as [|a p IH]; intros s H.
  - exists s. reflexivity.
  - destruct s as [|b s]; simpl in H; [discriminate|].
    destruct (Ascii.eqb a b) eqn:E; [|discriminate].
    apply Ascii.eqb_eq in E. subst b.
    destruct (IH _ H) as [post ->]. exists post. reflexivity.
Qed.

Lemma app_cons_s (c : ascii) (a b : string) : String c a +:+ b = String c (a +:+ b).
Proof. reflexivity. Qed.

Lemma app_nil_s (b : string) : "" +:+ b = b.
Proof. reflexivity. Qed.

Ltac unfold_app := rewrite ?app_cons_s, ?app_nil_s in *.

Lemma drop_app (p post : string) : JsString.drop (String.length p) (p +:+ post) = post.
Proof. induction p as [|a p IH]; simpl; auto. Qed.

Lemma app_assoc_s (a b c : string) : (a +:+ b) +:+ c = a +:+ (b +:+ c).
Proof. induction a as [|x a IH]; unfold_app; congruence. Qed.

Lemma includes_unfold (s p : string) :
  JsString.includes s p =
  if JsString.starts_with p s then true
  else match s with
       | EmptyString => false
       | String _ s' => JsString.includes s' p
       end.
Proof. destruct s; reflexivity. Qed.

Lemma replace_unfold (s pat rep : string) :
  JsString.replace s pat rep =
  if JsString.starts_with pat s then rep +:+ JsString.drop (String.length pat) s
  else match s with
       | EmptyString => EmptyString
       | String c s' => String c (JsString.replace s' pat rep)
       end.
Proof. destruct s; reflexivity. Qed.

Lemma includes_complete (p pre post : string) :
  JsString.includes (pre +:+ p +:+ post) p = true.
Proof.
  induction pre as [|c pre IH]; unfold_app; rewrite includes_unfold.
  - now rewrite starts_with_app.
  - destruct (JsString.starts_with p (String c (pre +:+ p +:+ post))); auto.
Qed.

Lemma includes_sound (s p : string) :
  JsString.includes s p = true -> occurs_in p s.
Proof.
  induction s as [|c s IH]; rewrite includes_unfold.
  - destruct (JsString.starts_with p "") eqn:E; [|discriminate].
    intros _. destruct (starts_with_inv _ _ E) as [post Hp].
    exists "", post. exact Hp.
  - destruct (JsString.starts_with p (String c s)) eqn:E.
    + intros _. destruct (starts_with_inv _ _ E) as [post Hp].
      exists "", post. exact Hp.
    + intros H. destruct (IH H) as (pre & post & ->).
      exists (String c pre), post. reflexivity.
Qed.

Lemma includes_iff (s p : string) : JsString.includes s p = true <-> occurs_in p s.
Proof.
  split; [apply includes_sound|].
  intros (pre & post & ->). apply includes_complete.
Qed.

Lemma replace_absent (s pat rep : string) :
  JsString.includes s pat = false -> JsString.replace s pat rep = s.
Proof.
  induction s as [|c s IH]; rewrite includes_unfold, replace_unfold.
  - destruct (JsString.starts_with pat ""); [discriminate|reflexivity].
  - destruct (JsString.starts_with pat (String c s)); [discriminate|].
    intros H. now rewrite IH.
Qed.

Lemma replace_at_head (pat rep post : string) :
  JsString.replace (pat +:+ post) pat rep = rep +:+ post.
Proof. now rewrite replace_unfold, starts_with_app, drop_app. Qed.

Lemma leftmost_head (pat post : string) : leftmost pat (pat +:+ post) "" post.
Proof. split; [reflexivity|]. intros; simpl; lia. Qed.

Lemma replace_leftmost (s pat rep : string) :
  occurs_in pat s ->
  exists pre post, leftmost pat s pre post /\ JsString.replace s pat rep = pre +:+ rep +:+ post.
Proof.
  induction s as [|c s IH]; intros Hocc.
  - apply includes_iff in Hocc. rewrite includes_unfold in Hocc.
    destruct (JsString.starts_with pat "") eqn:E; [|discriminate].
    destruct (starts_with_inv _ _ E) as [post Hp].
    destruct pat as [|a pat]; [|discriminate]. unfold_app. subst post.
    exists "", "". split; [apply (leftmost_head "" "") | reflexivity].
  - destruct (JsString.starts_with pat (String c s)) eqn:E.
    + destruct (starts_with_inv _ _ E) as [post Hp].
      exists "", post. rewrite Hp.
      split; [apply leftmost_head | exact (replace_at_head pat rep post)].
    + assert (Hs : occurs_in pat s).
      { destruct Hocc as (pre & post & Hp). destruct pre as [|c' pre]; unfold_app.
        - rewrite Hp, starts_with_app in E. discriminate.
        - injection Hp as _ ->. exists pre, post. reflexivity. }
      destruct (IH Hs) as (pre & post & [Heq Hmin] & Hr).
      exists (String c pre), post. rewrite replace_unfold, E. repeat split.
      * unfold_app. now rewrite <- Heq.
      * intros pre' post' Hp. destruct pre' as [|c' pre']; unfold_app.
        -- rewrite Hp, starts_with_app in E. discriminate.
        -- injection Hp as _ Hp. simpl.
           specialize (Hmin _ _ Hp). lia.
      * unfold_app. now rewrite Hr.
Qed.

Lemma occurs_in_trans (a b s : string) : occurs_in a b -> occurs_in b s -> occurs_in a s.
Proof.
  intros (p1 & q1 & ->) (p2 & q2 & ->).
  exists (p2 +:+ p1), (q1 +:+ q2).
  now rewrite !app_assoc_s.
Qed.

(** ** The upstream base address *)

Example url_localhost :
  AI_SERVER_URL {| env_AI_SERVER_URL := Some "http://localhost:5000";
                   env_NODEMAILER_USER := None; env_NODEMAILER_PASS := None |}
  = "http://127.0.0.1:5000".
Proof. reflexivity. Qed.

Example url_other_port :
  AI_SERVER_URL {| env_AI_SERVER_URL := Some "http://localhost:8000";
                   env_NODEMAILER_USER := None; env_NODEMAILER_PASS := None |}
  = "http://localhost:8000".
Proof. reflexivity. Qed.

(** C9.  The configured base address is the environment's value, or
    [http://127.0.0.1:5000] when there is none.  If it contains
    [localhost:5000], the address used is that string with its (leftmost)
    [localhost] replaced by [127.0.0.1]; otherwise, the default included, it
    is used unchanged.  Every client [getAiAxiosForUser] builds has the
    resulting address as its [baseURL]. *)
Theorem AI_SERVER_URL_localhost_rewrite (env : environment) :
  (occurs_in "localhost:5000" (configured_url env) ->
     exists pre post,
       leftmost "localhost" (configured_url env) pre post /\
       AI_SERVER_URL env = pre +:+ "127.0.0.1" +:+ post)
  /\ (~ occurs_in "localhost:5000" (configured_url env) ->
        AI_SERVER_URL env = configured_url env)
  /\ (env_AI_SERVER_URL env = None -> AI_SERVER_URL env = "http://127.0.0.1:5000")
  /\ (forall s, env_AI_SERVER_URL env = Some s -> s <> "" -> configured_url env = s)
  /\ (forall userId w, baseURL (snd (getAiAxiosForUser env userId w)) = AI_SERVER_URL env).
Proof.
  repeat split.
  - intros Hocc. unfold AI_SERVER_URL; cbv zeta.
    assert (Hin : JsString.includes (configured_url env) "localhost:5000" = true)
      by now apply includes_iff.
    rewrite Hin. apply replace_leftmost.
    eapply occurs_in_trans; [|exact Hocc].
    exists "", ":5000". reflexivity.
  - intros Hno. unfold AI_SERVER_URL; cbv zeta.
    destruct (JsString.includes (configured_url env) "localhost:5000") eqn:E; [|reflexivity].
    apply includes_iff in E. contradiction.
  - intros Hnone. unfold AI_SERVER_URL, configured_url. rewrite Hnone. reflexivity.
  - intros s Hs Hne. unfold configured_url. rewrite Hs. simpl.
    destruct s; [contradiction|reflexivity].
Qed.

Lemma AI_SERVER_URL_localhost_rewrite_witness :
  let env := {| env_AI_SERVER_URL := Some "http://localhost:5000/api";
                env_NODEMAILER_USER := None; env_NODEMAILER_PASS := None |} in
  occurs_in "localhost:5000" (configured_url env) /\
  exists pre post,
    leftmost "localhost" (configured_url env) pre post /\
    AI_SERVER_URL env = pre +:+ "127.0.0.1" +:+ post.
Proof.
  intros env.
  assert (H : occurs_in "localhost:5000" (configured_url env)).
  { exists "http://", "/api". reflexivity. }
  split; [exact H|].
  exact (proj1 (AI_SERVER_URL_localhost_rewrite env) H).
Defined.

(** ** The session store and the two hooks *)

Lemma on_response_captured (u : string) (uc : gmap string string) (o : net_outcome) :
  on_response u uc o = match captured o with
                       | Some c => <[u := c]> uc
                       | None => uc
                       end.
Proof.
  unfold on_response, captured, on_fulfilled, on_rejected.
  destruct (settle o) as [r|e]; [|reflexivity].
  destruct (headers r !! "set-cookie") as [h|]; [|reflexivity].
  destruct (header_truthy h); reflexivity.
Qed.

Lemma on_response_other (u v : string) (uc : gmap string string) (o : net_outcome) :
  u <> v -> on_response u uc o !! v = uc !! v.
Proof.
  intros Hne. rewrite on_response_captured.
  destruct (captured o); [apply lookup_insert_ne; exact Hne | reflexivity].
Qed.

Lemma on_request_cases (u : string) (uc : gmap string string) (hs : req_headers) :
  on_request u uc hs = hs \/
  exists c, uc !! u = Some c /\ c <> "" /\ on_request u uc hs = <["Cookie" := c]> hs.
Proof.
  unfold on_request. destruct (uc !! u) as [c|]; [|left; reflexivity].
  destruct c as [|a c]; simpl; [left; reflexivity|].
  right. eexists. repeat split. discriminate.
Qed.

Lemma on_request_local (u : string) (uc1 uc2 : gmap string string) (hs : req_headers) :
  uc1 !! u = uc2 !! u -> on_request u uc1 hs = on_request u uc2 hs.
Proof. unfold on_request. intros ->. reflexivity. Qed.

Lemma run_hooks_app (g : gateway) (evs1 evs2 : list hook_event) :
  run_hooks g (evs1 ++ evs2) = run_hooks (run_hooks g evs1) evs2.
Proof. apply fold_left_app. Qed.

Lemma stored_was_captured (u c : string) (evs : list hook_event) (g : gateway) :
  userCookies (run_hooks g evs) !! u = Some c ->
  userCookies g !! u = Some c \/ captured_for u c evs.
Proof.
  revert g. induction evs as [|ev evs IH]; intros g H; [left; exact H|].
  simpl in H. destruct (IH _ H) as [Hg | (o & Hin & Hc)].
  - destruct ev as [v rq | v o]; simpl in Hg; [left; exact Hg|].
    rewrite on_response_captured in Hg.
    destruct (captured o) as [c'|] eqn:Hcap; [|left; exact Hg].
    destruct (decide (v = u)) as [->|Hne].
    + rewrite lookup_insert_eq in Hg. injection Hg as ->.
      right. exists o. split; [left; reflexivity | exact Hcap].
    + rewrite lookup_insert_ne in Hg by exact Hne. left; exact Hg.
  - right. exists o. split; [right; exact Hin | exact Hc].
Qed.

Lemma wire_of_app (u : string) (g : gateway) (x : string * outgoing) :
  map snd (List.filter (fun y => String.eqb (fst y) u) (wire g ++ [x])) =
  (wire_of u g ++ if String.eqb (fst x) u then [snd x] else [])%list.
Proof.
  unfold wire_of. rewrite List.filter_app, List.map_app. simpl.
  destruct (String.eqb (fst x) u); reflexivity.
Qed.

(** The requests sent for [u] are a function of [u]'s own steps and [u]'s
    own entry in the store. *)
Lemma wire_of_own_events (u : string) (evs : list hook_event) (g1 g2 : gateway) :
  userCookies g1 !! u = userCookies g2 !! u ->
  wire_of u g1 = wire_of u g2 ->
  userCookies (run_hooks g1 evs) !! u = userCookies (run_hooks g2 (events_of u evs)) !! u /\
  wire_of u (run_hooks g1 evs) = wire_of u (run_hooks g2 (events_of u evs)).
Proof.
  revert g1 g2. induction evs as [|ev evs IH]; intros g1 g2 Hc Hw; [split; assumption|].
  simpl. destruct (String.eqb (event_user ev) u) eqn:E.
  - apply String.eqb_eq in E. simpl. apply IH.
    + destruct ev as [v rq | v o]; simpl in *; [exact Hc|]. subst v.
      rewrite !on_response_captured.
      destruct (captured o); [now rewrite !lookup_insert_eq | exact Hc].
    + destruct ev as [v rq | v o]; simpl in *; [|exact Hw]. subst v.
      unfold wire_of at 1 2. simpl. rewrite !wire_of_app. simpl.
      rewrite String.eqb_refl, Hw. unfold intercept_request.
      now rewrite (on_request_local u _ _ _ Hc).
  - apply String.eqb_neq in E. apply IH.
    + destruct ev as [v rq | v o]; simpl in *; [exact Hc|].
      now rewrite on_response_other.
    + destruct ev as [v rq | v o]; simpl in *; [|exact Hw].
      unfold wire_of at 1. simpl. rewrite wire_of_app. simpl.
      apply String.eqb_neq in E. rewrite E. now rewrite app_nil_r.
Qed.

(** C1.  Session isolation.  Take any schedule of hook runs and two
    distinct users A and B.  The request hook of B's client either leaves
    the headers alone or sets [Cookie] to the entry stored under B, which a
    response to one of B's own exchanges put there; a credential stored
    under A changes nothing for B; and the requests sent for B are those of
    the schedule with every step of the other users removed. *)
Theorem session_isolation (A B : string) (evs : list hook_event) :
  A <> B ->
  let g := run_hooks gateway_init evs in
  (forall hs,
     on_request B (userCookies g) hs = hs \/
     exists c, userCookies g !! B = Some c /\
               on_request B (userCookies g) hs = <["Cookie" := c]> hs /\
               captured_for B c evs)
  /\ (forall cA hs,
        on_request B (<[A := cA]> (userCookies g)) hs = on_request B (userCookies g) hs)
  /\ wire_of B g = wire_of B (run_hooks gateway_init (events_of B evs)).
Proof.
  intros Hne g. repeat split.
  - intros hs. destruct (on_request_cases B (userCookies g) hs) as [H | (c & Hc & _ & H)];
      [left; exact H|].
    right. exists c. repeat split; [exact Hc | exact H |].
    destruct (stored_was_captured B c evs gateway_init Hc) as [H0 | H1]; [|exact H1].
    simpl in H0. rewrite lookup_empty in H0. discriminate.
  - intros cA hs. apply on_request_local. apply lookup_insert_ne. exact Hne.
  - apply (wire_of_own_events B evs gateway_init gateway_init); reflexivity.
Qed.

Lemma session_isolation_witness :
  let evs := [ Receive "alice" (NetResponse {| status := 200; data := JNull;
                                               headers := {["set-cookie" := HArr ["sid=A1"]]} |});
               Transmit "bob" {| out_path := "/query"; out_headers := ∅;
                                 out_payload := NoBody; out_timeout := 60000 |} ] in
  "alice" <> "bob" /\
  wire_of "bob" (run_hooks gateway_init evs)
  = wire_of "bob" (run_hooks gateway_init (events_of "bob" evs)).
Proof.
  intros evs.
  assert (Hne : "alice" <> "bob") by discriminate.
  split; [exact Hne|].
  exact (proj2 (proj2 (session_isolation "alice" "bob" evs Hne))).
Defined.

Example isolation_run :
  map cookie_sent
    (wire_of "bob"
       (run_hooks gateway_init
          [ Receive "alice" (NetResponse {| status := 200; data := JNull;
                                            headers := {["set-cookie" := HArr ["sid=A1"]]} |});
            Transmit "bob" {| out_path := "/query"; out_headers := ∅;
                              out_payload := NoBody; out_timeout := 60000 |};
            Transmit "alice" {| out_path := "/query"; out_headers := ∅;
                                out_payload := NoBody; out_timeout := 60000 |} ]))
  = [None].
Proof. vm_compute. reflexivity. Qed.

(** C2, as stated, fails: a response that axios rejects (here a 500) and
    that carries [set-cookie] leaves the store as it was. *)
Lemma capture_on_failure_counterexample :
  let r := {| status := 500; data := JNull;
              headers := {["set-cookie" := HArr ["session=abc"]]} |} in
  headers r !! "set-cookie" = Some (HArr ["session=abc"]) /\
  on_response "u1" ∅ (NetResponse r) !! "u1" = None /\
  ~ (forall (u : string) (uc : gmap string string) (r : response) (h : header_value),
       headers r !! "set-cookie" = Some h ->
       on_response u uc (NetResponse r) = <[u := cookieString h]> uc).
Proof.
  intros r. split; [reflexivity|]. split; [reflexivity|].
  intros H. specialize (H "u1" ∅ r (HArr ["session=abc"]) eq_refl).
  apply (f_equal (fun m => m !! "u1")) in H.
  rewrite lookup_insert_eq in H. discriminate H.
Qed.

(** C2, amended.  The response hook of an exchange for [u] rewrites the
    store exactly when axios resolves the call (status 2xx) and the response
    has a truthy [set-cookie] header: then [u]'s entry becomes the header's
    cookie string, whatever was there before.  A response axios rejects, a
    transport failure, and a response without such a header leave the store
    unchanged.  [post] applies this hook to whatever comes back. *)
Theorem capture_on_success_only (u : string) (uc : gmap string string) :
  (forall r h,
     validateStatus (status r) = true ->
     headers r !! "set-cookie" = Some h -> header_truthy h = true ->
     on_response u uc (NetResponse r) = <[u := cookieString h]> uc)
  /\ (forall r,
        validateStatus (status r) = true ->
        (headers r !! "set-cookie" = None \/ headers r !! "set-cookie" = Some (HStr "")) ->
        on_response u uc (NetResponse r) = uc)
  /\ (forall r, validateStatus (status r) = false -> on_response u uc (NetResponse r) = uc)
  /\ (forall msg code, on_response u uc (NetNoResponse msg code) = uc)
  /\ (forall aiAxios rq net g,
        userCookies (fst (post u aiAxios rq net g)) = on_response u (userCookies g) net).
Proof.
  repeat split.
  - intros r h Hv Hh Ht. unfold on_response, settle, on_fulfilled. now rewrite Hv, Hh, Ht.
  - intros r Hv [Hh|Hh]; unfold on_response, settle, on_fulfilled; now rewrite Hv, Hh.
  - intros r Hv. unfold on_response, settle. now rewrite Hv.
  - intros aiAxios rq net g. unfold post. cbv zeta. cbn [fst].
    destruct (transmitted net); reflexivity.
Qed.

Lemma capture_on_success_only_witness :
  let r := {| status := 200; data := JNull;
              headers := {["set-cookie" := HArr ["a=1"; "b=2"]]} |} in
  validateStatus (status r) = true /\
  on_response "u1" {["u1" := "old=0"]} (NetResponse r) = <["u1" := "a=1; b=2"]> {["u1" := "old=0"]}.
Proof.
  intros r. split; [reflexivity|].
  exact (proj1 (capture_on_success_only "u1" {["u1" := "old=0"]})
           r (HArr ["a=1"; "b=2"]) eq_refl eq_refl eq_refl).
Defined.

(** C6, as stated, fails when the credential is the empty string: an empty
    [Set-Cookie] header is stored, and the request hook then attaches
    nothing. *)
Lemma capture_then_reuse_counterexample :
  let r := {| status := 200; data := JNull; headers := {["set-cookie" := HArr [""]]} |} in
  let rq := {| out_path := "/query"; out_headers := ∅;
               out_payload := NoBody; out_timeout := 60000 |} in
  let g1 := hook_step gateway_init (Receive "u1" (NetResponse r)) in
  captured (NetResponse r) = Some "" /\
  userCookies g1 !! "u1" = Some "" /\
  map cookie_sent (wire_of "u1" (hook_step g1 (Transmit "u1" rq))) = [None] /\
  ~ (forall (U H : string) (g : gateway) (o : net_outcome) (rq' : outgoing),
       captured o = Some H ->
       userCookies (hook_step g (Receive U o)) !! U = Some H ->
       map cookie_sent (wire_of U (hook_step (hook_step g (Receive U o)) (Transmit U rq')))
       = map cookie_sent (wire_of U g) ++ [Some H]).
Proof.
  intros r rq g1.
  split; [reflexivity|]. split; [reflexivity|]. split; [vm_compute; reflexivity|].
  intros H.
  specialize (H "u1" "" gateway_init (NetResponse r) rq eq_refl eq_refl).
  vm_compute in H. discriminate H.
Qed.

Lemma keeps_preserves (u c : string) (between : list hook_event) (g : gateway) :
  Forall (keeps u) between ->
  userCookies g !! u = Some c ->
  userCookies (run_hooks g between) !! u = Some c.
Proof.
  revert g. induction between as [|ev evs IH]; intros g Hk Hg; [exact Hg|].
  inversion Hk as [|? ? Hev Hrest]; subst. simpl. apply IH; [exact Hrest|].
  destruct ev as [v rq | v o]; simpl in *; [exact Hg|].
  destruct (decide (v = u)) as [->|Hne].
  - rewrite on_response_captured, (Hev eq_refl). exact Hg.
  - rewrite on_response_other by exact Hne. exact Hg.
Qed.

(** C6, amended.  If the response hook of an exchange for U writes the
    credential H and H is not the empty string, then, after any steps that
    write no credential for U, the next request sent for U carries
    [Cookie: H]. *)
Theorem capture_then_reuse (U H : string) (g : gateway) (o : net_outcome)
    (between : list hook_event) (rq : outgoing) :
  captured o = Some H ->
  H <> "" ->
  Forall (keeps U) between ->
  let g1 := run_hooks (hook_step g (Receive U o)) between in
  userCookies g1 !! U = Some H /\
  exists sent,
    wire (hook_step g1 (Transmit U rq)) = wire g1 ++ [(U, sent)] /\
    cookie_sent sent = Some H.
Proof.
  intros Hcap Hne Hk g1.
  assert (Hst : userCookies g1 !! U = Some H).
  { apply keeps_preserves; [exact Hk|]. simpl.
    rewrite on_response_captured, Hcap. apply lookup_insert_eq. }
  split; [exact Hst|].
  eexists. split; [reflexivity|].
  unfold cookie_sent, intercept_request, on_request; simpl. rewrite Hst.
  destruct H as [|a H]; [contradiction|]. simpl. apply lookup_insert_eq.
Qed.

Lemma capture_then_reuse_witness :
  let o := NetResponse {| status := 200; data := JNull;
                          headers := {["set-cookie" := HArr ["sid=42"; "Path=/"]]} |} in
  let between := [ Receive "u2" (NetResponse {| status := 200; data := JNull;
                                                headers := {["set-cookie" := HArr ["sid=7"]]} |});
                   Receive "u1" (NetResponse {| status := 500; data := JNull;
                                                headers := {["set-cookie" := HArr ["sid=x"]]} |}) ] in
  let rq := {| out_path := "/query"; out_headers := ∅;
               out_payload := NoBody; out_timeout := 60000 |} in
  let g1 := run_hooks (hook_step gateway_init (Receive "u1" o)) between in
  userCookies g1 !! "u1" = Some "sid=42; Path=/" /\
  exists sent,
    wire (hook_step g1 (Transmit "u1" rq)) = wire g1 ++ [("u1", sent)] /\
    cookie_sent sent = Some "sid=42; Path=/".
Proof.
  intros o between rq.
  apply (capture_then_reuse "u1" "sid=42; Path=/" gateway_init o between rq).
  - reflexivity.
  - discriminate.
  - repeat constructor; simpl; intros; try reflexivity; discriminate.
Defined.

(** ** The handlers *)

Lemma bad_envelope_success (d : jsval) :
  bad_envelope d = negb (truthy (prop d "success") && truthy (prop d "data")).
Proof.
  unfold bad_envelope.
  destruct d; simpl; try reflexivity;
    try (destruct b; reflexivity);
    try (destruct (n =? 0); reflexivity);
    try (destruct s; reflexivity);
    destruct (truthy (assoc "success" fields)), (truthy (assoc "data" fields)); reflexivity.
Qed.

Lemma validateStatus_not_200 (st : Z) : validateStatus st = false -> status_or_500 st <> 200.
Proof.
  unfold validateStatus, status_or_500. intros H.
  destruct (st =? 0) eqn:E; [lia|].
  destruct (200 <=? st) eqn:E1, (st <? 300) eqn:E2; simpl in H; try discriminate; lia.
Qed.

(** Past validation, [queryPDF] builds one client, sends one request to
    [/query] and decides on what comes back. *)
Lemma queryPDF_admitted (env : environment) (w : world) (req : request) (net : net_outcome) :
  query_admitted w req = true ->
  exists sent,
    let w2 := after_exchange env w (req_user req) sent net in
    out_path sent = "/query" /\
    out_payload sent = FormUrlEncoded [("query", to_string (prop (req_body req) "question"))] /\
    queryPDF env w req net =
    match settle net with
    | Fulfilled resp =>
        if bad_envelope (data resp) then
          (w2, reply 500 [ ("error", prop (data resp) "message" ||| JStr "Invalid response from AI server") ])
        else
          ({| gw := gw w2; built := built w2; pdfs := pdfs w2;
              queries := queries w ++
                [ {| qh_question := prop (req_body req) "question";
                     qh_answer := prop (prop (data resp) "data") "answer";
                     qh_user := req_user req;
                     qh_pdf := prop (req_body req) "pdfId" |} ] |},
           reply_ok [ ("answer", prop (prop (data resp) "data") "answer");
                      ("conversation_history", prop (prop (data resp) "data") "conversation_history") ])
    | Rejected e => (w2, query_catch e)
    end.
Proof.
  unfold query_admitted, queryPDF. intros H.
  destruct (destructure_error (req_body req)); [discriminate|].
  apply andb_prop in H as [Hqp Hf]. apply andb_prop in Hqp as [Hq Hp].
  rewrite Hq, Hp. simpl negb. cbv iota.
  apply bool_decide_eq_true in Hf. destruct Hf as [p Hf]. rewrite Hf.
  exists (intercept_request (req_user req) (userCookies (gw w))
            {| out_path := "/query";
               out_headers := {["Content-Type" := "application/x-www-form-urlencoded"]}
                              ∪ default_headers (axios_create env);
               out_payload := FormUrlEncoded [("query", to_string (prop (req_body req) "question"))];
               out_timeout := timeout (axios_create env) |}).
  cbv zeta. split; [reflexivity|]. split; [reflexivity|].
  unfold getAiAxiosForUser, post, with_gw, after_exchange, QueryHistory_save. cbv zeta.
  destruct (transmitted net); unfold hook_step;
    cbn [gw built pdfs queries userCookies wire fst snd];
    rewrite ?app_nil_r;
    (destruct (settle net) as [resp|e]; [destruct (bad_envelope (data resp))|]; reflexivity).
Qed.

(** A rejected validation leaves the world as it was; an admitted call
    builds a client and, unless axios gives up first, puts a request on the
    wire. *)
Lemma queryPDF_admitted_sends (env : environment) (w : world) (req : request) (net : net_outcome) :
  query_admitted w req = true ->
  transmitted net = true ->
  let w' := fst (queryPDF env w req net) in
  length (built w') = S (length (built w)) /\
  length (wire (gw w')) = S (length (wire (gw w))).
Proof.
  intros H Ht. destruct (queryPDF_admitted env w req net H) as (sent & _ & _ & ->).
  destruct (settle net) as [resp|e]; [destruct (bad_envelope (data resp))|];
    cbn [fst after_exchange gw built wire]; rewrite Ht, !length_app; simpl; lia.
Qed.

Lemma findOne_not_owned (ps : list pdf_doc) (id : jsval) (user : string) :
  (forall p, In p ps -> JStr (pdf_id p) = id -> pdf_user p <> user) ->
  PDF_findOne ps id user = None.
Proof.
  intros H. unfold PDF_findOne. destruct id; try reflexivity.
  destruct (List.find _ ps) as [p|] eqn:E; [|reflexivity].
  apply List.find_some in E as [Hin Hb].
  apply andb_prop in Hb as [Hi Hu].
  apply String.eqb_eq in Hi, Hu. subst.
  exfalso. exact (H p Hin eq_refl eq_refl).
Qed.

(** C5.  [queryPDF] answers 400 when the question is missing or empty, 400
    when the PDF id is missing, and 404 when no PDF with that id belongs to
    the caller (the request body being there to read the two fields from).
    Whenever the call does not get past validation the world is returned as
    it was: no client has been built and nothing has been put on the
    wire. *)
Theorem query_fail_fast (env : environment) (w : world) (req : request) (net : net_outcome) :
  let question := prop (req_body req) "question" in
  let pdfId := prop (req_body req) "pdfId" in
  let out := queryPDF env w req net in
  (query_admitted w req = false ->
     fst out = w /\ built (fst out) = built w /\ wire (gw (fst out)) = wire (gw w))
  /\ (destructure_error (req_body req) = None ->
        (truthy question = false ->
           out = (w, reply 400 [ ("error", JStr "Question is required") ]))
        /\ (truthy question = true -> truthy pdfId = false ->
              out = (w, reply 400 [ ("error", JStr "PDF ID is required") ]))
        /\ (truthy question = true -> truthy pdfId = true ->
              (forall p, In p (pdfs w) -> JStr (pdf_id p) = pdfId -> pdf_user p <> req_user req) ->
              query_admitted w req = false /\
              out = (w, reply 404 [ ("error", JStr "PDF not found or not authorized") ]))).
Proof.
  intros question pdfId out. subst out question pdfId.
  unfold queryPDF, query_admitted. split.
  - destruct (destructure_error (req_body req)); [intros _; auto|].
    destruct (truthy (prop (req_body req) "question")); [|intros _; auto].
    destruct (truthy (prop (req_body req) "pdfId")); [|intros _; auto].
    destruct (PDF_findOne _ _ _); [|intros _; auto].
    simpl. discriminate.
  - intros ->. split; [|split].
    + intros ->. reflexivity.
    + intros -> ->. reflexivity.
    + intros -> -> Hown. simpl. now rewrite (findOne_not_owned _ _ _ Hown).
Qed.

Lemma query_fail_fast_witness :
  let env := {| env_AI_SERVER_URL := None; env_NODEMAILER_USER := None;
                env_NODEMAILER_PASS := None |} in
  let w := {| gw := gateway_init; built := [];
              pdfs := [ {| pdf_id := "X"; pdf_filename := "x-1.pdf"; pdf_originalname := "x.pdf";
                           pdf_path := "uploads/x-1.pdf"; pdf_user := "userB" |} ];
              queries := [] |} in
  let req := {| req_user := "userA"; req_file := None;
                req_body := JObj [ ("question", JStr "What is in it?"); ("pdfId", JStr "X") ] |} in
  let net := NetResponse {| status := 200; data := JNull; headers := ∅ |} in
  destructure_error (req_body req) = None /\
  query_admitted w req = false /\
  queryPDF env w req net = (w, reply 404 [ ("error", JStr "PDF not found or not authorized") ]).
Proof.
  intros env w req net.
  assert (Hb : destructure_error (req_body req) = None) by reflexivity.
  split; [exact Hb|].
  refine (proj2 (proj2 (proj2 (query_fail_fast env w req net) Hb)) eq_refl eq_refl _).
  intros p [<-|[]] _. discriminate.
Defined.

(** C7.  In [queryPDF], an upstream HTTP 200 whose body has [success]
    false, or has no [data] field, gives the caller status 500; the error
    message is the body's [message] when there is one and
    [Invalid response from AI server] otherwise. *)
Theorem query_logical_failure (env : environment) (w : world) (req : request) (r : response) :
  query_admitted w req = true ->
  status r = 200 ->
  prop (data r) "success" = JBool false \/ prop (data r) "data" = JUndefined ->
  let res := snd (queryPDF env w req (NetResponse r)) in
  res_status res = 500
  /\ res_body res = JObj [ ("error", prop (data r) "message" ||| JStr "Invalid response from AI server") ]
  /\ (forall m, prop (data r) "message" = JStr m -> m <> "" ->
        res_body res = JObj [ ("error", JStr m) ])
  /\ (prop (data r) "message" = JUndefined ->
        res_body res = JObj [ ("error", JStr "Invalid response from AI server") ]).
Proof.
  intros Hadm Hst Henv res. subst res.
  destruct (queryPDF_admitted env w req (NetResponse r) Hadm) as (sent & _ & _ & ->).
  assert (Hs : settle (NetResponse r) = Fulfilled r)
    by (unfold settle; rewrite Hst; reflexivity).
  rewrite Hs.
  assert (Hbad : bad_envelope (data r) = true).
  { rewrite bad_envelope_success. destruct Henv as [-> | ->]; simpl; [reflexivity|].
    now rewrite andb_false_r. }
  rewrite Hbad. cbn [snd reply res_status res_body].
  split; [reflexivity|]. split; [reflexivity|]. split.
  - intros m -> Hm. unfold js_or. destruct m; [contradiction|reflexivity].
  - intros ->. reflexivity.
Qed.

Lemma query_logical_failure_witness :
  let env := {| env_AI_SERVER_URL := None; env_NODEMAILER_USER := None;
                env_NODEMAILER_PASS := None |} in
  let w := {| gw := gateway_init; built := [];
              pdfs := [ {| pdf_id := "X"; pdf_filename := "x-1.pdf"; pdf_originalname := "x.pdf";
                           pdf_path := "uploads/x-1.pdf"; pdf_user := "userA" |} ];
              queries := [] |} in
  let req := {| req_user := "userA"; req_file := None;
                req_body := JObj [ ("question", JStr "What is in it?"); ("pdfId", JStr "X") ] |} in
  let r := {| status := 200;
              data := JObj [ ("success", JBool false); ("message", JStr "index not built") ];
              headers := ∅ |} in
  query_admitted w req = true /\
  res_status (snd (queryPDF env w req (NetResponse r))) = 500 /\
  res_body (snd (queryPDF env w req (NetResponse r))) = JObj [ ("error", JStr "index not built") ].
Proof.
  intros env w req r.
  assert (Hadm : query_admitted w req = true) by reflexivity.
  pose proof (query_logical_failure env w req r Hadm eq_refl (or_introl eq_refl)) as H.
  split; [exact Hadm|]. split; [exact (proj1 H)|].
  refine (proj1 (proj2 (proj2 H)) "index not built" eq_refl _). discriminate.
Defined.

(** C10.  [queryPDF] never touches the stored PDFs, and it adds a history
    record exactly when the call got past validation and the upstream
    answered with a well-formed success envelope; then the record holds the
    question, the answer, the caller and the PDF id, and the caller gets
    200.  On every other path (validation failure, transport failure,
    upstream error status, malformed or unsuccessful envelope) the history
    is as it was and the caller gets another status. *)
Theorem query_history_only_on_success (env : environment) (w : world) (req : request)
    (net : net_outcome) :
  let out := queryPDF env w req net in
  pdfs (fst out) = pdfs w
  /\ (query_admitted w req && success_envelope net = true ->
        exists r, net = NetResponse r /\
        queries (fst out) = queries w ++
          [ {| qh_question := prop (req_body req) "question";
               qh_answer := prop (prop (data r) "data") "answer";
               qh_user := req_user req;
               qh_pdf := prop (req_body req) "pdfId" |} ]
        /\ res_status (snd out) = 200)
  /\ (query_admitted w req && success_envelope net = false ->
        queries (fst out) = queries w /\ res_status (snd out) <> 200).
Proof.
  intros out. subst out.
  destruct (query_admitted w req) eqn:Hadm.
  - destruct (queryPDF_admitted env w req net Hadm) as (sent & _ & _ & ->).
    rewrite andb_true_l. unfold success_envelope, settle.
    destruct net as [r | msg code | msg code].
    + rewrite <- andb_assoc.
      destruct (validateStatus (status r)) eqn:Hv; simpl "&&".
      * rewrite bad_envelope_success.
        destruct (truthy (prop (data r) "success") && truthy (prop (data r) "data")); simpl negb; cbv iota;
          cbn [fst snd pdfs queries after_exchange reply reply_ok res_status].
        -- split; [reflexivity|]. split; [|discriminate].
           intros _. exists r. repeat split.
        -- split; [reflexivity|]. split; [discriminate|].
           intros _. split; [reflexivity|discriminate].
      * cbn [fst snd pdfs queries after_exchange]. split; [reflexivity|]. split; [discriminate|].
        intros _. split; [reflexivity|].
        unfold query_catch, passthrough_catch. cbn [err_response reply res_status].
        now apply validateStatus_not_200.
    + cbn [fst snd pdfs queries after_exchange]. split; [reflexivity|]. split; [discriminate|].
      intros _. split; [reflexivity|]. cbv. discriminate.
    + cbn [fst snd pdfs queries after_exchange]. split; [reflexivity|]. split; [discriminate|].
      intros _. split; [reflexivity|]. cbv. discriminate.
  - rewrite andb_false_l. unfold query_admitted in Hadm. unfold queryPDF.
    destruct (destructure_error (req_body req)) as [msg|].
    + cbn. split; [reflexivity|]. split; [discriminate|]. intros _. split; [reflexivity|discriminate].
    + destruct (truthy (prop (req_body req) "question"));
        [|cbn; split; [reflexivity|]; split; [discriminate|]; intros _; split; [reflexivity|discriminate]].
      destruct (truthy (prop (req_body req) "pdfId"));
        [|cbn; split; [reflexivity|]; split; [discriminate|]; intros _; split; [reflexivity|discriminate]].
      destruct (PDF_findOne _ _ _); [simpl in Hadm; discriminate|].
      cbn. split; [reflexivity|]. split; [discriminate|]. intros _. split; [reflexivity|discriminate].
Qed.

Lemma query_history_only_on_success_witness :
  let env := {| env_AI_SERVER_URL := None; env_NODEMAILER_USER := None;
                env_NODEMAILER_PASS := None |} in
  let w := {| gw := gateway_init; built := [];
              pdfs := [ {| pdf_id := "X"; pdf_filename := "x-1.pdf"; pdf_originalname := "x.pdf";
                           pdf_path := "uploads/x-1.pdf"; pdf_user := "userA" |} ];
              queries := [] |} in
  let req := {| req_user := "userA"; req_file := None;
                req_body := JObj [ ("question", JStr "What is in it?"); ("pdfId", JStr "X") ] |} in
  let net := NetResponse {| status := 502; data := JStr "Bad Gateway"; headers := ∅ |} in
  query_admitted w req && success_envelope net = false /\
  queries (fst (queryPDF env w req net)) = queries w /\
  res_status (snd (queryPDF env w req net)) <> 200.
Proof.
  intros env w req net.
  assert (H : query_admitted w req && success_envelope net = false) by reflexivity.
  split; [exact H|].
  exact (proj2 (proj2 (query_history_only_on_success env w req net)) H).
Defined.

Lemma uploadPDF_rejected (env : environment) (new_ObjectId : list pdf_doc -> string)
    (form_boundary : string) (w : world) (req : request) (f : upload_file)
    (net : net_outcome) (e : error) :
  req_file req = Some f ->
  settle net = Rejected e ->
  snd (uploadPDF env new_ObjectId form_boundary w req net) = upload_catch env e.
Proof.
  intros Hf Hs. unfold uploadPDF. rewrite Hf.
  unfold getAiAxiosForUser, post. cbv zeta. rewrite Hs. reflexivity.
Qed.

Lemma clearVectorData_rejected (env : environment) (w : world) (req : request)
    (net : net_outcome) (e : error) :
  settle net = Rejected e ->
  snd (clearVectorData env w req net) = clear_catch e.
Proof.
  intros Hs. unfold clearVectorData, getAiAxiosForUser, post. cbv zeta. rewrite Hs. reflexivity.
Qed.

Lemma settle_error_response (r : response) :
  validateStatus (status r) = false ->
  exists e, settle (NetResponse r) = Rejected e /\ err_response e = Some r.
Proof. intros Hv. unfold settle. rewrite Hv. eexists. split; reflexivity. Qed.

(** A [server] header that is a string containing either signature counts
    as AirPlay. *)
Lemma isAirPlay_server (hs : gmap string header_value) (s : string) :
  hs !! "server" = Some (HStr s) ->
  occurs_in "AirTunes" s \/ occurs_in "AirPlay" s ->
  isAirPlay hs = true.
Proof.
  intros Hs Hocc. unfold isAirPlay, serverHeader, header_or. rewrite Hs.
  assert (Ht : header_truthy (HStr s) = true).
  { destruct s; [|reflexivity].
    destruct Hocc as [(pre & post & H) | (pre & post & H)];
      destruct pre; discriminate H. }
  rewrite Ht. simpl. apply orb_true_iff.
  destruct Hocc as [H|H]; [left|right]; now apply includes_iff.
Qed.

(** C3, as stated, fails: [queryPDF] and [clearVectorData] answer an
    upstream 403 bearing the AirTunes signature with 403, not with the 503
    port-conflict reply. *)
Lemma port_conflict_counterexample :
  let env := {| env_AI_SERVER_URL := None; env_NODEMAILER_USER := None;
                env_NODEMAILER_PASS := None |} in
  let w := {| gw := gateway_init; built := [];
              pdfs := [ {| pdf_id := "X"; pdf_filename := "x-1.pdf"; pdf_originalname := "x.pdf";
                           pdf_path := "uploads/x-1.pdf"; pdf_user := "userA" |} ];
              queries := [] |} in
  let req := {| req_user := "userA"; req_file := None;
                req_body := JObj [ ("question", JStr "What is in it?"); ("pdfId", JStr "X") ] |} in
  let r := {| status := 403; data := JStr "";
              headers := {["server" := HStr "AirTunes/860.7.1"]} |} in
  isAirPlay (headers r) = true /\
  query_admitted w req = true /\
  snd (queryPDF env w req (NetResponse r)) = reply 403 [ ("error", JStr "Error from AI server") ] /\
  snd (clearVectorData env w req (NetResponse r)) = reply 403 [ ("error", JStr "Error from AI server") ] /\
  reply 403 [ ("error", JStr "Error from AI server") ] <> reply 503 port_conflict_body.
Proof. vm_compute. repeat split. discriminate. Qed.

(** C3, amended.  Upstream failures are classified per operation:
    [uploadPDF] by its own table, [queryPDF] and [clearVectorData] by a
    shared pass-through.  For an upstream 403 whose server header carries
    the AirTunes/AirPlay signature, [uploadPDF] answers 503 with the
    port-conflict message whatever the body, and the other two answer 403
    with the body's message or error, or [Error from AI server]. *)
Theorem failure_policy_per_operation (env : environment)
    (new_ObjectId : list pdf_doc -> string) (form_boundary : string)
    (w : world) (req : request) (net : net_outcome) (e : error) :
  settle net = Rejected e ->
  (forall f, req_file req = Some f ->
     snd (uploadPDF env new_ObjectId form_boundary w req net) = upload_catch env e)
  /\ (query_admitted w req = true ->
        snd (queryPDF env w req net) = passthrough_catch "Error processing query: " e)
  /\ snd (clearVectorData env w req net) = passthrough_catch "Error clearing vector data: " e
  /\ (forall r, err_response e = Some r -> status r = 403 -> isAirPlay (headers r) = true ->
        upload_catch env e = reply 503 port_conflict_body
        /\ forall prefix,
             passthrough_catch prefix e =
             reply 403 [ ("error", prop (data r) "message" ||| prop (data r) "error"
                                   ||| JStr "Error from AI server") ]).
Proof.
  intros Hs. split; [|split; [|split]].
  - intros f Hf. now apply (uploadPDF_rejected env new_ObjectId form_boundary w req f net e).
  - intros Hadm. destruct (queryPDF_admitted env w req net Hadm) as (sent & _ & _ & ->).
    rewrite Hs. reflexivity.
  - now apply clearVectorData_rejected.
  - intros r Hr Hst Hair. split.
    + unfold upload_catch. rewrite Hr, Hst, Hair. reflexivity.
    + intros prefix. unfold passthrough_catch. rewrite Hr, Hst. reflexivity.
Qed.

Lemma failure_policy_per_operation_witness :
  let env := {| env_AI_SERVER_URL := None; env_NODEMAILER_USER := None;
                env_NODEMAILER_PASS := None |} in
  let w := {| gw := gateway_init; built := []; pdfs := []; queries := [] |} in
  let req := {| req_user := "userA";
                req_file := Some {| file_filename := "x-1.pdf"; file_originalname := "x.pdf";
                                    file_path := "uploads/x-1.pdf" |};
                req_body := JObj [] |} in
  let r := {| status := 403; data := JObj [ ("message", JStr "Forbidden") ];
              headers := {["server" := HStr "AirTunes/860.7.1"]} |} in
  validateStatus (status r) = false /\
  snd (uploadPDF env (fun _ => "id1") "b0" w req (NetResponse r)) = reply 503 port_conflict_body /\
  snd (clearVectorData env w req (NetResponse r)) = reply 403 [ ("error", JStr "Forbidden") ].
Proof.
  intros env w req r.
  assert (Hv : validateStatus (status r) = false) by reflexivity.
  split; [exact Hv|].
  pose (e := {| err_message := "Request failed with status code 403";
                err_code := Some "ERR_BAD_REQUEST";
                err_response := Some r; err_request := true |}).
  assert (Hs : settle (NetResponse r) = Rejected e) by reflexivity.
  assert (Hair : isAirPlay (headers r) = true).
  { apply (isAirPlay_server _ "AirTunes/860.7.1"); [reflexivity|].
    left. exists "", "/860.7.1". reflexivity. }
  destruct (failure_policy_per_operation env (fun _ => "id1") "b0" w req (NetResponse r) e Hs)
    as (Hup & _ & Hcl & H403).
  destruct (H403 r eq_refl eq_refl Hair) as [Hu Hp].
  split.
  - rewrite (Hup _ eq_refl). exact Hu.
  - rewrite Hcl. exact (Hp _).
Defined.

(** C4, as stated, fails at 403: it is below 500 and is not echoed. *)
Lemma upload_status_counterexample :
  let env := {| env_AI_SERVER_URL := None; env_NODEMAILER_USER := None;
                env_NODEMAILER_PASS := None |} in
  let w := {| gw := gateway_init; built := []; pdfs := []; queries := [] |} in
  let req := {| req_user := "userA";
                req_file := Some {| file_filename := "x-1.pdf"; file_originalname := "x.pdf";
                                    file_path := "uploads/x-1.pdf" |};
                req_body := JObj [] |} in
  let r := {| status := 403; data := JObj [ ("message", JStr "Forbidden") ];
              headers := {["server" := HStr "nginx"]} |} in
  validateStatus (status r) = false /\
  res_status (snd (uploadPDF env (fun _ => "id1") "b0" w req (NetResponse r))) = 503 /\
  ~ (forall r' : response,
       validateStatus (status r') = false ->
       res_status (snd (uploadPDF env (fun _ => "id1") "b0" w req (NetResponse r')))
       = if status r' =? 400 then 400 else if 500 <=? status r' then 502 else status r').
Proof.
  intros env w req r.
  split; [reflexivity|]. split; [vm_compute; reflexivity|].
  intros H. specialize (H r eq_refl). vm_compute in H. discriminate H.
Qed.

(** C4, amended.  For an upstream error response, the status [uploadPDF]
    gives the caller is a function of the upstream status alone: 403 gives
    503, 400 gives 400, 500 and every other status from 500 up give 502, and
    every other status is echoed.  For 400 the error is the body's message,
    else the body, else a generic text; for 500 the error is generic and the
    details are the body's message or a generic text; for the statuses other
    than 400, 403 and 500 the error is the body when it is a string, else
    its message, else its error, else a generic text. *)
Theorem upload_error_status (env : environment) (new_ObjectId : list pdf_doc -> string)
    (form_boundary : string) (w : world) (req : request) (f : upload_file) (r : response) :
  req_file req = Some f ->
  validateStatus (status r) = false ->
  let res := snd (uploadPDF env new_ObjectId form_boundary w req (NetResponse r)) in
  let d := data r in
  res_status res = upload_caller_status (status r)
  /\ (status r = 400 ->
        res_body res = JObj [ ("error", prop d "message" ||| d ||| JStr "Invalid request to AI server") ])
  /\ (status r = 500 ->
        res_body res =
        JObj [ ("error", JStr "AI server internal error. Please try again later.");
               ("details", prop d "message" ||| JStr "Internal server error on AI server") ])
  /\ (status r <> 400 -> status r <> 403 -> status r <> 500 ->
        res_body res =
        JObj [ ("error", if is_string d then d
                         else prop d "message" ||| prop d "error" ||| JStr "Error from AI server") ]).
Proof.
  intros Hf Hv res d. subst res d.
  destruct (settle_error_response r Hv) as (e & Hs & Hr).
  rewrite (uploadPDF_rejected env new_ObjectId form_boundary w req f _ e Hf Hs).
  unfold upload_catch, upload_caller_status. rewrite Hr.
  split; [|split; [|split]].
  - destruct (status r =? 403); [destruct (isAirPlay (headers r)); reflexivity|].
    destruct (status r =? 400); [reflexivity|].
    destruct (status r =? 500) eqn:E; [|reflexivity].
    apply Z.eqb_eq in E. rewrite E. reflexivity.
  - intros ->. reflexivity.
  - intros ->. reflexivity.
  - intros H400 H403 H500.
    apply Z.eqb_neq in H400, H403, H500. rewrite H400, H403, H500. reflexivity.
Qed.

Lemma upload_error_status_witness :
  let env := {| env_AI_SERVER_URL := None; env_NODEMAILER_USER := None;
                env_NODEMAILER_PASS := None |} in
  let w := {| gw := gateway_init; built := []; pdfs := []; queries := [] |} in
  let req := {| req_user := "userA";
                req_file := Some {| file_filename := "x-1.pdf"; file_originalname := "x.pdf";
                                    file_path := "uploads/x-1.pdf" |};
                req_body := JObj [] |} in
  let r := {| status := 413; data := JObj [ ("error", JStr "File too large") ]; headers := ∅ |} in
  validateStatus (status r) = false /\
  res_status (snd (uploadPDF env (fun _ => "id1") "b0" w req (NetResponse r))) = 413 /\
  res_body (snd (uploadPDF env (fun _ => "id1") "b0" w req (NetResponse r)))
  = JObj [ ("error", JStr "File too large") ].
Proof.
  intros env w req r.
  assert (Hv : validateStatus (status r) = false) by reflexivity.
  split; [exact Hv|].
  destruct (upload_error_status env (fun _ => "id1") "b0" w req _ r eq_refl Hv)
    as (Hst & _ & _ & Hbody).
  split; [exact Hst|].
  apply Hbody; discriminate.
Defined.

(** ** Mail *)

Lemma credentials_missing_unset (env : environment) :
  env_NODEMAILER_USER env = None \/ env_NODEMAILER_PASS env = None ->
  Mail.credentials_missing env = true.
Proof.
  unfold Mail.credentials_missing. intros [-> | ->]; simpl; [reflexivity|].
  apply orb_true_r.
Qed.

Example mail_sent_with_credentials :
  let env := {| env_AI_SERVER_URL := None; env_NODEMAILER_USER := Some "bot@example.com";
                env_NODEMAILER_PASS := Some "secret" |} in
  let net := {| Mail.smtp_verify := None; Mail.smtp_sendMail := fun _ => inr "<id-1>" |} in
  fst (Mail.mailSender env net (JStr "a@b.io") "Hello" "<p>Hi</p>") = inr "<id-1>" /\
  existsb Mail.is_send (snd (Mail.mailSender env net (JStr "a@b.io") "Hello" "<p>Hi</p>")) = true /\
  existsb Mail.is_send (snd (Mail.otp_pre_save env net true
                               {| Mail.otp_email := "a@b.io"; Mail.otp_otp := "123456" |})) = true.
Proof. vm_compute. repeat split. Qed.

Lemma otp_hook_calls_next (env : environment) (net : Mail.smtp) (isNew : bool)
    (doc : Mail.otp_doc) :
  fst (Mail.otp_pre_save env net isNew doc) = Mail.Next.
Proof.
  unfold Mail.otp_pre_save. destruct isNew; [|reflexivity].
  destruct (Mail.credentials_missing env); [reflexivity|].
  destruct (Mail.smtp_sendMail net _); reflexivity.
Qed.

(** Whether a record is created depends on the document and the store
    alone, not on the mail configuration or on how SMTP answers. *)
Lemma OTP_create_outcome_independent (env env' : environment) (net net' : Mail.smtp)
    (store : list Mail.otp_doc) (doc : Mail.otp_doc) :
  fst (Mail.OTP_create env net store doc) = fst (Mail.OTP_create env' net' store doc).
Proof.
  unfold Mail.OTP_create. destruct (Mail.validate doc); [|reflexivity].
  pose proof (otp_hook_calls_next env net true doc) as H.
  pose proof (otp_hook_calls_next env' net' true doc) as H'.
  destruct (Mail.otp_pre_save env net true doc) as [n evs].
  destruct (Mail.otp_pre_save env' net' true doc) as [n' evs'].
  simpl in H, H'. subst n n'.
  destruct (existsb _ store); reflexivity.
Qed.

(** The gateway handlers never read the mail credentials. *)
Lemma handler_ignores_mail_credentials (env : environment)
    (new_ObjectId : list pdf_doc -> string) (form_boundary : string) (op : operation)
    (w : world) (req : request) (net : net_outcome) (user pass : option string) :
  handler env new_ObjectId form_boundary op w req net =
  handler {| env_AI_SERVER_URL := env_AI_SERVER_URL env;
             env_NODEMAILER_USER := user; env_NODEMAILER_PASS := pass |}
          new_ObjectId form_boundary op w req net.
Proof. destruct env as [url u0 p0]. destruct op; reflexivity. Qed.

(** C8.  The sources read the environment in three places:
    [createTransporter], the OTP hook and the upstream address.  With the
    mail credentials absent, only the operations that need them are
    affected, and each ends with a result of its own.  [mailSender] catches
    the error [createTransporter] throws and rejects its promise, having
    asked nothing of nodemailer (for a well-formed address the rejection
    names the missing configuration).  The OTP hook calls [next()] without
    an error and without sending, so a document that passes the schema and
    whose address is not stored yet is created; whether a record is created
    never depends on the mail configuration.  The gateway handlers answer
    exactly as they do with credentials set, and an absent upstream address
    falls back to the default. *)
Theorem missing_mail_credentials (env : environment) (net : Mail.smtp) :
  Mail.credentials_missing env = true ->
  (forall email subject body,
     exists msg, Mail.mailSender env net email subject body = (inl msg, []))
  /\ (forall email subject body,
        Mail.invalid_email email = false ->
        Mail.mailSender env net email subject body =
        (inl "Failed to send email: Email configuration missing: NODEMAILER_USER and NODEMAILER_PASS must be set",
         []))
  /\ (forall isNew doc, Mail.otp_pre_save env net isNew doc = (Mail.Next, []))
  /\ (forall store doc,
        Mail.validate doc = [] ->
        existsb (fun d => String.eqb (Mail.otp_email d) (Mail.otp_email doc)) store = false ->
        Mail.OTP_create env net store doc = (inr (store ++ [doc]), []))
  /\ (forall store doc env' net',
        fst (Mail.OTP_create env net store doc) = fst (Mail.OTP_create env' net' store doc)
        /\ snd (Mail.OTP_create env net store doc) = [])
  /\ (forall new_ObjectId form_boundary op w req up user pass,
        handler env new_ObjectId form_boundary op w req up =
        handler {| env_AI_SERVER_URL := env_AI_SERVER_URL env;
                   env_NODEMAILER_USER := user; env_NODEMAILER_PASS := pass |}
                new_ObjectId form_boundary op w req up)
  /\ (env_AI_SERVER_URL env = None -> AI_SERVER_URL env = default_url).
Proof.
  intros Hmiss. split; [|split; [|split; [|split; [|split; [|split]]]]].
  - intros email subject body. unfold Mail.mailSender, Mail.createTransporter.
    rewrite Hmiss. destruct (Mail.invalid_email email); eexists; reflexivity.
  - intros email subject body Hvalid. unfold Mail.mailSender, Mail.createTransporter.
    rewrite Hvalid, Hmiss. reflexivity.
  - intros isNew doc. unfold Mail.otp_pre_save. rewrite Hmiss. destruct isNew; reflexivity.
  - intros store doc Hvalid Hfresh. unfold Mail.OTP_create, Mail.otp_pre_save.
    rewrite Hvalid, Hmiss, Hfresh. reflexivity.
  - intros store doc env' net'. split; [apply OTP_create_outcome_independent|].
    unfold Mail.OTP_create, Mail.otp_pre_save. rewrite Hmiss.
    destruct (Mail.validate doc); [|reflexivity].
    destruct (existsb _ store); reflexivity.
  - intros. apply handler_ignores_mail_credentials.
  - intros Hnone. unfold AI_SERVER_URL, configured_url. rewrite Hnone. reflexivity.
Qed.

Lemma missing_mail_credentials_witness :
  let env := {| env_AI_SERVER_URL := None; env_NODEMAILER_USER := None;
                env_NODEMAILER_PASS := None |} in
  let net := {| Mail.smtp_verify := None; Mail.smtp_sendMail := fun _ => inr "<id-1>" |} in
  let doc := {| Mail.otp_email := "a@b.io"; Mail.otp_otp := "123456" |} in
  Mail.credentials_missing env = true /\
  Mail.otp_pre_save env net true doc = (Mail.Next, []) /\
  Mail.mailSender env net (JStr "a@b.io") "Hello" "<p>Hi</p>" =
  (inl "Failed to send email: Email configuration missing: NODEMAILER_USER and NODEMAILER_PASS must be set",
   []) /\
  Mail.validate doc = [] /\
  Mail.OTP_create env net [] doc = (inr [doc], []).
Proof.
  intros env net doc.
  assert (Hm : Mail.credentials_missing env = true) by reflexivity.
  assert (Hv : Mail.validate doc = []) by (vm_compute; reflexivity).
  destruct (missing_mail_credentials env net Hm) as (_ & Hsend & Hhook & Hcreate & _).
  split; [exact Hm|]. split; [apply Hhook|].
  split; [apply Hsend; reflexivity|].
  split; [exact Hv|].
  exact (Hcreate [] doc Hv eq_refl).
Defined.

(** ** Whole calls on concrete inputs *)

Example reset_failure_keeps_store :
  let env := {| env_AI_SERVER_URL := None; env_NODEMAILER_USER := None;
                env_NODEMAILER_PASS := None |} in
  let w := {| gw := gateway_init; built := []; pdfs := []; queries := [] |} in
  let req := {| req_user := "u1"; req_file := None; req_body := JObj [] |} in
  let r := {| status := 500; data := JNull;
              headers := {["set-cookie" := HArr ["session=abc"]]} |} in
  userCookies (gw (fst (clearVectorData env w req (NetResponse r)))) !! "u1" = None /\
  res_status (snd (clearVectorData env w req (NetResponse r))) = 500.
Proof. vm_compute. split; reflexivity. Qed.

Example reset_then_query_reuses_session :
  let env := {| env_AI_SERVER_URL := None; env_NODEMAILER_USER := None;
                env_NODEMAILER_PASS := None |} in
  let w := {| gw := gateway_init; built := [];
              pdfs := [ {| pdf_id := "X"; pdf_filename := "x-1.pdf"; pdf_originalname := "x.pdf";
                           pdf_path := "uploads/x-1.pdf"; pdf_user := "u1" |} ];
              queries := [] |} in
  let reset := {| req_user := "u1"; req_file := None; req_body := JObj [] |} in
  let ask := {| req_user := "u1"; req_file := None;
                req_body := JObj [ ("question", JStr "Why?"); ("pdfId", JStr "X") ] |} in
  let ok := {| status := 200; data := JObj [ ("success", JBool true) ];
               headers := {["set-cookie" := HArr ["session=abc"; "theme=dark"]]} |} in
  let answer := {| status := 200;
                   data := JObj [ ("success", JBool true);
                                  ("data", JObj [ ("answer", JStr "Because.") ]) ];
                   headers := ∅ |} in
  let w1 := fst (clearVectorData env w reset (NetResponse ok)) in
  let out := queryPDF env w1 ask (NetResponse answer) in
  map cookie_sent (wire_of "u1" (gw (fst out))) = [None; Some "session=abc; theme=dark"] /\
  res_body (snd out) = JObj [ ("answer", JStr "Because."); ("conversation_history", JUndefined) ] /\
  length (queries (fst out)) = 1%nat.
Proof. vm_compute. repeat split. Qed.

(** * Further properties of the controller, the hooks and the mail helpers *)

(** ** The record store *)

Lemma findOne_some (ps : list pdf_doc) (id user : string) (p : pdf_doc) :
  PDF_findOne ps (JStr id) user = Some p ->
  In p ps /\ pdf_id p = id /\ pdf_user p = user.
Proof.
  unfold PDF_findOne. intros H. apply List.find_some in H as [Hin Hb].
  apply andb_prop in Hb as [Hi Hu]. apply String.eqb_eq in Hi, Hu. auto.
Qed.

Lemma findOne_owned (ps : list pdf_doc) (id user : string) (p : pdf_doc) :
  In p ps -> pdf_id p = id -> pdf_user p = user ->
  exists p', PDF_findOne ps (JStr id) user = Some p'.
Proof.
  intros Hin Hi Hu. unfold PDF_findOne.
  destruct (List.find _ ps) as [p'|] eqn:E; [eauto|].
  exfalso. pose proof (List.find_none _ _ E p Hin) as Hb. simpl in Hb.
  subst. rewrite !String.eqb_refl in Hb. discriminate.
Qed.

Lemma deleteOne_subset (ps : list pdf_doc) (id : string) (p : pdf_doc) :
  In p (PDF_deleteOne ps id) -> In p ps.
Proof.
  induction ps as [|x ps IH]; simpl; [auto|].
  destruct (String.eqb (pdf_id x) id); simpl; intuition.
Qed.

Lemma deleteOne_keeps_others (ps : list pdf_doc) (id : string) (p : pdf_doc) :
  pdf_id p <> id -> In p ps -> In p (PDF_deleteOne ps id).
Proof.
  intros Hne. induction ps as [|x ps IH]; simpl; [auto|].
  destruct (String.eqb (pdf_id x) id) eqn:E.
  - intros [->|H]; [|exact H]. apply String.eqb_eq in E. contradiction.
  - simpl. intuition.
Qed.

Lemma deleteOne_length (ps : list pdf_doc) (id : string) :
  (exists p, In p ps /\ pdf_id p = id) ->
  S (length (PDF_deleteOne ps id)) = length ps.
Proof.
  induction ps as [|x ps IH]; intros (p & Hin & Hid); [destruct Hin|].
  simpl. destruct (String.eqb (pdf_id x) id) eqn:E; [reflexivity|].
  simpl. f_equal. apply IH. destruct Hin as [->|Hin].
  - apply String.eqb_neq in E. contradiction.
  - eauto.
Qed.

Lemma deleteOne_ids (ps : list pdf_doc) (id : string) :
  List.NoDup (map pdf_id ps) ->
  List.NoDup (map pdf_id (PDF_deleteOne ps id)) /\
  forall p, In p (PDF_deleteOne ps id) -> pdf_id p <> id.
Proof.
  induction ps as [|x ps IH]; simpl; intros Hnd.
  - split; [constructor | intros p []].
  - apply List.NoDup_cons_iff in Hnd as [Hx Hnd].
    destruct (String.eqb (pdf_id x) id) eqn:E.
    + apply String.eqb_eq in E. subst id. split; [exact Hnd|].
      intros p Hin Heq. apply Hx. rewrite <- Heq. now apply in_map.
    + apply String.eqb_neq in E. destruct (IH Hnd) as [IH1 IH2]. split.
      * simpl. apply List.NoDup_cons_iff. split; [|exact IH1].
        intros Hin. apply Hx. apply in_map_iff in Hin as (p & <- & Hp).
        apply in_map. eapply deleteOne_subset; eauto.
      * intros p [<-|Hin]; [exact E | now apply IH2].
Qed.

(** X1.  [getAllPDFs] is read-only and lists exactly the caller's PDFs:
    every listed document is one of the caller's stored PDFs with its
    [fileUrl] added, every PDF of the caller is listed, [count] is their
    number, and no listed document has a [path] key. *)
Theorem getAllPDFs_only_own (w : world) (req : request) (o : origin) :
  let out := getAllPDFs w req o in
  fst out = w /\
  exists docs,
    snd out = reply 200 [ ("count", JNum (Z.of_nat (length docs))); ("pdfs", JArr docs) ] /\
    length docs = length (List.filter (fun p => String.eqb (pdf_user p) (req_user req)) (pdfs w)) /\
    (forall d, In d docs <->
       exists p, In p (pdfs w) /\ pdf_user p = req_user req /\ d = with_file_url o p) /\
    (forall d, In d docs ->
       prop d "user" = JStr (req_user req) /\ ~ In "path" (keys_of d)).
Proof.
  intros out. subst out. unfold getAllPDFs. cbv zeta. split; [reflexivity|].
  eexists. split; [reflexivity|].
  assert (Hiff : forall d, In d (map (with_file_url o) (PDF_find (pdfs w) (req_user req))) <->
            exists p, In p (pdfs w) /\ pdf_user p = req_user req /\ d = with_file_url o p).
  { intros d. rewrite in_map_iff. unfold PDF_find. split.
    - intros (p & <- & Hin). apply in_rev in Hin. apply List.filter_In in Hin as [Hin Hu].
      apply String.eqb_eq in Hu. eauto.
    - intros (p & Hin & Hu & ->). exists p. split; [reflexivity|].
      apply -> in_rev. apply List.filter_In. split; [exact Hin|]. now apply String.eqb_eq. }
  split; [|split; [exact Hiff|]].
  - unfold PDF_find. now rewrite length_map, length_rev.
  - intros d Hd. apply Hiff in Hd as (p & _ & Hu & ->). split.
    + simpl. now rewrite Hu.
    + simpl. intros H. repeat (destruct H as [H|H]; [discriminate H|]). exact H.
Qed.

(** X2.  [getPDFById] is read-only; it answers 404 when no stored PDF with
    that id belongs to the caller, and otherwise 200 with a PDF that has
    that id and belongs to the caller, with [fileUrl] and without
    [path]. *)
Theorem getPDFById_owner_only (w : world) (req : request) (id : string) (o : origin) :
  let out := getPDFById w req id o in
  fst out = w
  /\ ((forall p, In p (pdfs w) -> pdf_id p = id -> pdf_user p <> req_user req) ->
        snd out = reply 404 [ ("error", JStr "PDF not found or not authorized") ])
  /\ ((exists p, In p (pdfs w) /\ pdf_id p = id /\ pdf_user p = req_user req) ->
        exists p, In p (pdfs w) /\ pdf_id p = id /\ pdf_user p = req_user req /\
                  snd out = reply 200 [ ("pdf", with_file_url o p) ] /\
                  ~ In "path" (keys_of (with_file_url o p))).
Proof.
  intros out. subst out. unfold getPDFById. split; [|split].
  - destruct (PDF_findOne _ _ _); reflexivity.
  - intros Hown. rewrite findOne_not_owned; [reflexivity|].
    intros p Hin Hid. injection Hid as Hid. now apply Hown.
  - intros (p & Hin & Hid & Hu).
    destruct (findOne_owned _ _ _ _ Hin Hid Hu) as [p' Hf]. rewrite Hf.
    destruct (findOne_some _ _ _ _ Hf) as (Hin' & Hid' & Hu').
    exists p'. repeat split; try assumption.
    simpl. intros H. repeat (destruct H as [H|H]; [discriminate H|]). exact H.
Qed.

Lemma getPDFById_owner_only_witness :
  let w := {| gw := gateway_init; built := [];
              pdfs := [ {| pdf_id := "X"; pdf_filename := "x-1.pdf"; pdf_originalname := "x.pdf";
                           pdf_path := "uploads/x-1.pdf"; pdf_user := "userB" |} ];
              queries := [] |} in
  let req := {| req_user := "userA"; req_file := None; req_body := JUndefined |} in
  let o := {| req_protocol := "https"; req_host := Some "files.example.org" |} in
  (forall p, In p (pdfs w) -> pdf_id p = "X" -> pdf_user p <> req_user req) /\
  snd (getPDFById w req "X" o) = reply 404 [ ("error", JStr "PDF not found or not authorized") ].
Proof.
  intros w req o.
  assert (H : forall p, In p (pdfs w) -> pdf_id p = "X" -> pdf_user p <> req_user req).
  { intros p [<-|[]] _. discriminate. }
  split; [exact H|].
  exact (proj1 (proj2 (getPDFById_owner_only w req "X" o)) H).
Defined.

(** X3.  [deletePDF] for an id the caller owns no PDF with answers 404,
    returns the world as it was and unlinks no file. *)
Theorem deletePDF_not_owned (w : world) (req : request) (id : string) :
  (forall p, In p (pdfs w) -> pdf_id p = id -> pdf_user p <> req_user req) ->
  deletePDF w req id = (w, reply 404 [ ("error", JStr "PDF not found or not authorized") ], []).
Proof.
  intros Hown. unfold deletePDF. rewrite findOne_not_owned; [reflexivity|].
  intros p Hin Hid. injection Hid as Hid. now apply Hown.
Qed.

Lemma deletePDF_not_owned_witness :
  let w := {| gw := gateway_init; built := [];
              pdfs := [ {| pdf_id := "X"; pdf_filename := "x-1.pdf"; pdf_originalname := "x.pdf";
                           pdf_path := "uploads/x-1.pdf"; pdf_user := "userB" |} ];
              queries := [] |} in
  let req := {| req_user := "userA"; req_file := None; req_body := JUndefined |} in
  (forall p, In p (pdfs w) -> pdf_id p = "X" -> pdf_user p <> req_user req) /\
  deletePDF w req "X" = (w, reply 404 [ ("error", JStr "PDF not found or not authorized") ], []).
Proof.
  intros w req.
  assert (H : forall p, In p (pdfs w) -> pdf_id p = "X" -> pdf_user p <> req_user req).
  { intros p [<-|[]] _. discriminate. }
  split; [exact H|].
  exact (deletePDF_not_owned w req "X" H).
Defined.

(** X4.  [deletePDF] for an id the caller owns a PDF with answers 200,
    unlinks the file of a PDF of the caller with that id, removes one PDF
    with that id and every history record that refers to the id, whoever
    asked the question, and touches nothing else: PDFs with another id,
    history records for another PDF, the session store and the wire stay. *)
Theorem deletePDF_cascade (w : world) (req : request) (id : string) :
  (exists p, In p (pdfs w) /\ pdf_id p = id /\ pdf_user p = req_user req) ->
  let out := deletePDF w req id in
  let w' := fst (fst out) in
  snd (fst out) = reply 200 [ ("message", JStr "PDF deleted successfully") ]
  /\ (exists p, In p (pdfs w) /\ pdf_id p = id /\ pdf_user p = req_user req /\
                snd out = [pdf_path p])
  /\ S (length (pdfs w')) = length (pdfs w)
  /\ (forall p, In p (pdfs w') -> In p (pdfs w))
  /\ (forall p, pdf_id p <> id -> In p (pdfs w) -> In p (pdfs w'))
  /\ (forall q, In q (queries w') <-> In q (queries w) /\ refers_to id q = false)
  /\ gw w' = gw w /\ built w' = built w.
Proof.
  intros (p & Hin & Hid & Hu) out w'. subst w' out. unfold deletePDF.
  destruct (findOne_owned _ _ _ _ Hin Hid Hu) as [p' Hf]. rewrite Hf.
  destruct (findOne_some _ _ _ _ Hf) as (Hin' & Hid' & Hu').
  cbn [fst snd pdfs queries gw built].
  split; [reflexivity|]. split; [exists p'; auto|].
  split; [apply deleteOne_length; eauto|].
  split; [intros; eapply deleteOne_subset; eauto|].
  split; [intros; now apply deleteOne_keeps_others|].
  split; [|split; reflexivity].
  intros q. unfold QueryHistory_deleteMany. rewrite List.filter_In.
  rewrite negb_true_iff. reflexivity.
Qed.

Lemma deletePDF_cascade_witness :
  let w := {| gw := gateway_init; built := [];
              pdfs := [ {| pdf_id := "X"; pdf_filename := "x-1.pdf"; pdf_originalname := "x.pdf";
                           pdf_path := "uploads/x-1.pdf"; pdf_user := "userA" |} ];
              queries := [ {| qh_question := JStr "Why?"; qh_answer := JStr "Because.";
                              qh_user := "userA"; qh_pdf := JStr "X" |} ] |} in
  let req := {| req_user := "userA"; req_file := None; req_body := JUndefined |} in
  (exists p, In p (pdfs w) /\ pdf_id p = "X" /\ pdf_user p = req_user req) /\
  S (length (pdfs (fst (fst (deletePDF w req "X"))))) = length (pdfs w).
Proof.
  intros w req.
  assert (H : exists p, In p (pdfs w) /\ pdf_id p = "X" /\ pdf_user p = req_user req).
  { eexists. split; [left; reflexivity|]. split; reflexivity. }
  split; [exact H|].
  exact (proj1 (proj2 (proj2 (deletePDF_cascade w req "X" H)))).
Defined.

(** ** [uploadPDF] and what the handlers keep invariant *)

Lemma falsy_has_no_props (d : jsval) (k : string) :
  truthy d = false -> prop d k = JUndefined.
Proof. destruct d; simpl; try reflexivity; discriminate. Qed.

Lemma upload_test_success (d : jsval) :
  negb (truthy d) || negb (truthy (prop d "success")) = negb (truthy (prop d "success")).
Proof.
  destruct (truthy d) eqn:E; [reflexivity|].
  now rewrite (falsy_has_no_props d "success" E).
Qed.

(** With a file, [uploadPDF] builds one client, sends one request to
    [/upload] and decides on what comes back. *)
Lemma uploadPDF_with_file (env : environment) (new_ObjectId : list pdf_doc -> string)
    (form_boundary : string) (w : world) (req : request) (f : upload_file) (net : net_outcome) :
  req_file req = Some f ->
  exists sent,
    let w2 := after_exchange env w (req_user req) sent net in
    let savedPdf := {| pdf_id := new_ObjectId (pdfs w);
                       pdf_filename := file_filename f;
                       pdf_originalname := file_originalname f;
                       pdf_path := file_path f;
                       pdf_user := req_user req |} in
    out_path sent = "/upload" /\
    out_payload sent = Multipart "pdf_files" (file_originalname f) (file_path f) "application/pdf" /\
    uploadPDF env new_ObjectId form_boundary w req net =
    match settle net with
    | Fulfilled resp =>
        if negb (truthy (prop (data resp) "success")) then
          (w2, reply 500
                 [ ("error", JStr ("Error uploading PDF: " +:+
                                   to_string (prop (data resp) "message"
                                              ||| JStr "AI server returned unsuccessful response"))) ])
        else
          ({| gw := gw w2; built := built w2; pdfs := pdfs w ++ [savedPdf]; queries := queries w |},
           reply 200
             [ ("message", JStr "PDF uploaded successfully");
               ("data", JObj [ ("_id", JStr (pdf_id savedPdf));
                               ("filename", JStr (pdf_filename savedPdf));
                               ("originalname", JStr (pdf_originalname savedPdf)) ]);
               ("aiResponse", data resp) ])
    | Rejected e => (w2, upload_catch env e)
    end.
Proof.
  intros Hf. unfold uploadPDF. rewrite Hf.
  exists (intercept_request (req_user req) (userCookies (gw w))
            {| out_path := "/upload";
               out_headers := {["content-type" := "multipart/form-data; boundary=" +:+ form_boundary]}
                              ∪ default_headers (axios_create env);
               out_payload := Multipart "pdf_files" (file_originalname f) (file_path f)
                                "application/pdf";
               out_timeout := 120000 |}).
  cbv zeta. split; [reflexivity|]. split; [reflexivity|].
  unfold getAiAxiosForUser, post, with_gw, after_exchange, PDF_save, reply_ok. cbv zeta.
  destruct (transmitted net); unfold hook_step;
    cbn [gw built pdfs queries userCookies wire fst snd];
    rewrite ?app_nil_r;
    (destruct (settle net) as [resp|e];
       [rewrite upload_test_success; destruct (negb (truthy (prop (data resp) "success")))|];
     reflexivity).
Qed.

Lemma upload_catch_not_200 (env : environment) (r : response) (e : error) :
  err_response e = Some r -> validateStatus (status r) = false ->
  res_status (upload_catch env e) <> 200.
Proof.
  intros Hr Hv. unfold upload_catch. rewrite Hr.
  destruct (status r =? 403); [destruct (isAirPlay (headers r)); discriminate|].
  destruct (status r =? 400); [discriminate|].
  destruct (status r =? 500); [discriminate|].
  cbn [reply res_status]. destruct (500 <=? status r); [discriminate|].
  unfold validateStatus in Hv.
  destruct (200 <=? status r) eqn:E1, (status r <? 300) eqn:E2; simpl in Hv; try discriminate; lia.
Qed.

(** X5.  [uploadPDF] stores a PDF record exactly when a file was supplied
    and the upstream acknowledged the upload (2xx with a truthy [success]):
    then the record carries the file's names and path, belongs to the
    caller, and the caller gets 200 with the record's id.  Without a file
    the answer is 400 and the world is untouched; on every other path the
    stored PDFs are as they were and the status is not 200.  The query
    history is never touched. *)
Theorem upload_stores_only_on_success (env : environment)
    (new_ObjectId : list pdf_doc -> string) (form_boundary : string)
    (w : world) (req : request) (net : net_outcome) :
  let out := uploadPDF env new_ObjectId form_boundary w req net in
  queries (fst out) = queries w
  /\ (req_file req = None -> out = (w, reply 400 [ ("error", JStr "No PDF file uploaded") ]))
  /\ (forall f, req_file req = Some f -> upload_acknowledged net = true ->
        pdfs (fst out) = pdfs w ++ [ {| pdf_id := new_ObjectId (pdfs w);
                                       pdf_filename := file_filename f;
                                       pdf_originalname := file_originalname f;
                                       pdf_path := file_path f;
                                       pdf_user := req_user req |} ]
        /\ res_status (snd out) = 200
        /\ prop (prop (res_body (snd out)) "data") "_id" = JStr (new_ObjectId (pdfs w)))
  /\ (forall f, req_file req = Some f -> upload_acknowledged net = false ->
        pdfs (fst out) = pdfs w /\ res_status (snd out) <> 200).
Proof.
  intros out. subst out. split; [|split; [|split]].
  - destruct (req_file req) as [f|] eqn:Hf.
    + destruct (uploadPDF_with_file env new_ObjectId form_boundary w req f net Hf)
        as (sent & _ & _ & ->).
      destruct (settle net) as [resp|e];
        [destruct (negb (truthy (prop (data resp) "success")))|]; reflexivity.
    + unfold uploadPDF. rewrite Hf. reflexivity.
  - intros Hf. unfold uploadPDF. rewrite Hf. reflexivity.
  - intros f Hf Hack.
    destruct (uploadPDF_with_file env new_ObjectId form_boundary w req f net Hf)
      as (sent & _ & _ & ->).
    destruct net as [r|msg code|msg code]; [|discriminate|discriminate]. simpl in Hack.
    apply andb_prop in Hack as [Hv Hs]. unfold settle. rewrite Hv, Hs.
    repeat split.
  - intros f Hf Hack.
    destruct (uploadPDF_with_file env new_ObjectId form_boundary w req f net Hf)
      as (sent & _ & _ & ->).
    destruct net as [r|msg code|msg code].
    + simpl in Hack. unfold settle. destruct (validateStatus (status r)) eqn:Hv.
      * simpl in Hack. rewrite Hack. split; [reflexivity|discriminate].
      * split; [reflexivity|]. cbn [snd]. now apply (upload_catch_not_200 env r).
    + split; [reflexivity|]. cbv. discriminate.
    + split; [reflexivity|]. cbv. discriminate.
Qed.

Lemma upload_stores_only_on_success_witness :
  let env := {| env_AI_SERVER_URL := None; env_NODEMAILER_USER := None;
                env_NODEMAILER_PASS := None |} in
  let w := {| gw := gateway_init; built := []; pdfs := []; queries := [] |} in
  let f := {| file_filename := "x-1.pdf"; file_originalname := "x.pdf";
              file_path := "uploads/x-1.pdf" |} in
  let req := {| req_user := "userA"; req_file := Some f; req_body := JObj [] |} in
  let net := NetResponse {| status := 200;
                            data := JObj [ ("success", JBool false); ("message", JStr "bad pdf") ];
                            headers := ∅ |} in
  upload_acknowledged net = false /\
  pdfs (fst (uploadPDF env (fun _ => "id1") "b0" w req net)) = pdfs w /\
  res_status (snd (uploadPDF env (fun _ => "id1") "b0" w req net)) <> 200.
Proof.
  intros env w f req net.
  assert (H : upload_acknowledged net = false) by reflexivity.
  split; [exact H|].
  exact (proj2 (proj2 (proj2 (upload_stores_only_on_success env (fun _ => "id1") "b0" w req net)))
           f eq_refl H).
Defined.

Lemma findOne_some_val (ps : list pdf_doc) (id : jsval) (user : string) (p : pdf_doc) :
  PDF_findOne ps id user = Some p ->
  In p ps /\ id = JStr (pdf_id p) /\ pdf_user p = user.
Proof.
  destruct id; try discriminate. intros H.
  destruct (findOne_some _ _ _ _ H) as (Hin & Hid & Hu). subst. auto.
Qed.

Lemma queryPDF_not_admitted (env : environment) (w : world) (req : request) (net : net_outcome) :
  query_admitted w req = false -> fst (queryPDF env w req net) = w.
Proof.
  unfold queryPDF, query_admitted.
  destruct (destructure_error (req_body req)); [reflexivity|].
  destruct (truthy (prop (req_body req) "question")); [|reflexivity].
  destruct (truthy (prop (req_body req) "pdfId")); [|reflexivity].
  destruct (PDF_findOne _ _ _); [|reflexivity].
  simpl. discriminate.
Qed.

Lemma queryPDF_stores (env : environment) (w : world) (req : request) (net : net_outcome) :
  pdfs (fst (queryPDF env w req net)) = pdfs w /\
  (queries (fst (queryPDF env w req net)) = queries w \/
   exists q p, queries (fst (queryPDF env w req net)) = queries w ++ [q] /\
               In p (pdfs w) /\ qh_pdf q = JStr (pdf_id p) /\ pdf_user p = qh_user q /\
               qh_user q = req_user req).
Proof.
  destruct (query_admitted w req) eqn:Hadm.
  - pose proof Hadm as Hadm'. unfold query_admitted in Hadm'.
    destruct (destructure_error (req_body req)); [discriminate|].
    apply andb_prop in Hadm' as [_ Hf]. apply bool_decide_eq_true in Hf as [p Hf].
    destruct (findOne_some_val _ _ _ _ Hf) as (Hin & Hid & Hu).
    destruct (queryPDF_admitted env w req net Hadm) as (sent & _ & _ & ->).
    destruct (settle net) as [resp|e]; [destruct (bad_envelope (data resp))|];
      cbn [fst pdfs queries after_exchange]; auto.
    split; [reflexivity|].
    right. eexists. exists p. split; [reflexivity|]. cbn. auto.
  - rewrite (queryPDF_not_admitted env w req net Hadm). auto.
Qed.

Lemma clearVectorData_stores (env : environment) (w : world) (req : request) (net : net_outcome) :
  pdfs (fst (clearVectorData env w req net)) = pdfs w /\
  queries (fst (clearVectorData env w req net)) = queries w.
Proof.
  unfold clearVectorData, getAiAxiosForUser, post. cbv zeta.
  destruct (settle net); split; reflexivity.
Qed.

Lemma uploadPDF_stores (env : environment) (new_ObjectId : list pdf_doc -> string)
    (form_boundary : string) (w : world) (req : request) (net : net_outcome) :
  let w' := fst (uploadPDF env new_ObjectId form_boundary w req net) in
  queries w' = queries w /\
  (pdfs w' = pdfs w \/
   exists p, pdfs w' = pdfs w ++ [p] /\ pdf_id p = new_ObjectId (pdfs w) /\
             pdf_user p = req_user req).
Proof.
  cbv zeta. destruct (req_file req) as [f|] eqn:Hf.
  - destruct (uploadPDF_with_file env new_ObjectId form_boundary w req f net Hf)
      as (sent & _ & _ & ->).
    destruct (settle net) as [resp|e];
      [destruct (negb (truthy (prop (data resp) "success")))|];
      cbn [fst pdfs queries after_exchange]; auto.
    split; [reflexivity|]. right. eexists. repeat split.
  - unfold uploadPDF. rewrite Hf. auto.
Qed.

Lemma queryPDF_in_two_parts (env : environment) (w : world) (req : request)
    (net : net_outcome) :
  transmitted net = true ->
  queryPDF env w req net =
  match queryPDF_until_post env w req with
  | (w1, inl res) => (w1, res)
  | (w1, inr fl) => queryPDF_after_post w1 fl net
  end.
Proof.
  intros Ht. unfold queryPDF, queryPDF_until_post.
  destruct (destructure_error (req_body req)); [reflexivity|].
  destruct (negb (truthy (prop (req_body req) "question"))); [reflexivity|].
  destruct (negb (truthy (prop (req_body req) "pdfId"))); [reflexivity|].
  destruct (PDF_findOne _ _ _); [|reflexivity].
  unfold getAiAxiosForUser, post, queryPDF_after_post. cbv zeta. rewrite Ht.
  cbn [with_gw gw built pdfs queries qf_user qf_question qf_pdfId].
  destruct (settle net) as [resp|e]; [destruct (bad_envelope (data resp))|]; reflexivity.
Qed.

(** Each handler, run from start to end with no other handler in between,
    keeps every history record pointing at a stored PDF of its user. *)
Lemma history_refers_step (env : environment) (new_ObjectId : list pdf_doc -> string)
    (form_boundary : string) (w : world) (req : request) (net : net_outcome) (id : string) :
  history_refers w ->
  history_refers (fst (uploadPDF env new_ObjectId form_boundary w req net))
  /\ history_refers (fst (queryPDF env w req net))
  /\ history_refers (fst (clearVectorData env w req net))
  /\ history_refers (fst (fst (deletePDF w req id))).
Proof.
  intros Hinv. unfold history_refers in *. split; [|split; [|split]].
  - destruct (uploadPDF_stores env new_ObjectId form_boundary w req net) as [Hq Hp].
    cbv zeta in Hq, Hp. rewrite Hq. intros q Hin.
    destruct (Hinv q Hin) as (p & Hp1 & Hp2 & Hp3).
    exists p. repeat split; try assumption.
    destruct Hp as [-> | (p' & -> & _)]; [exact Hp1 | apply in_or_app; left; exact Hp1].
  - destruct (queryPDF_stores env w req net) as [Hp Hq]. rewrite Hp.
    destruct Hq as [-> | (q' & p' & -> & Hin' & Hid' & Hu' & _)]; [exact Hinv|].
    intros q Hin. apply in_app_or in Hin as [Hin | [<- | []]]; [now apply Hinv|].
    exists p'. auto.
  - destruct (clearVectorData_stores env w req net) as [-> ->]. exact Hinv.
  - unfold deletePDF. destruct (PDF_findOne _ _ _) as [p0|]; [|exact Hinv].
    cbn [fst pdfs queries]. intros q Hin.
    unfold QueryHistory_deleteMany in Hin. apply List.filter_In in Hin as [Hin Hr].
    destruct (Hinv q Hin) as (p & Hp1 & Hp2 & Hp3).
    exists p. repeat split; try assumption.
    apply deleteOne_keeps_others; [|exact Hp1].
    intros Heq. unfold refers_to in Hr. rewrite Hp2, Heq, String.eqb_refl in Hr. discriminate.
Qed.

(** X6.  Referential integrity of the history holds only from one handler
    to the next.  If every history record refers to a stored PDF of the
    same user, this is still so after [uploadPDF], [queryPDF],
    [clearVectorData] or [deletePDF] has run from start to end with no
    other handler in between.  It is lost when handlers overlap: if the
    owner's [deletePDF] runs while a [queryPDF] on that PDF waits for the
    upstream answer, the history record written when the answer arrives
    refers to a PDF that is no longer stored. *)
Theorem history_refers_only_without_overlap (env : environment)
    (new_ObjectId : list pdf_doc -> string) (form_boundary : string) :
  (forall w req net id,
     history_refers w ->
     history_refers (fst (uploadPDF env new_ObjectId form_boundary w req net))
     /\ history_refers (fst (queryPDF env w req net))
     /\ history_refers (fst (clearVectorData env w req net))
     /\ history_refers (fst (fst (deletePDF w req id))))
  /\ (exists w req id net w1 fl,
        history_refers w
        /\ queryPDF_until_post env w req = (w1, inr fl)
        /\ history_refers (fst (fst (deletePDF w1 req id)))
        /\ res_status (snd (queryPDF_after_post (fst (fst (deletePDF w1 req id))) fl net)) = 200
        /\ ~ history_refers (fst (queryPDF_after_post (fst (fst (deletePDF w1 req id))) fl net))).
Proof.
  split; [intros w req net id; apply history_refers_step|].
  pose (w := {| gw := gateway_init; built := [];
                pdfs := [ {| pdf_id := "X"; pdf_filename := "x-1.pdf"; pdf_originalname := "x.pdf";
                             pdf_path := "uploads/x-1.pdf"; pdf_user := "userA" |} ];
                queries := [] |}).
  pose (req := {| req_user := "userA"; req_file := None;
                  req_body := JObj [ ("question", JStr "Why?"); ("pdfId", JStr "X") ] |}).
  pose (net := NetResponse {| status := 200;
                              data := JObj [ ("success", JBool true);
                                             ("data", JObj [ ("answer", JStr "Because.") ]) ];
                              headers := ∅ |}).
  exists w, req, "X", net. do 2 eexists.
  split; [intros q []|]. split; [reflexivity|].
  split; [intros q []|]. split; [reflexivity|].
  intros H.
  destruct (H {| qh_question := JStr "Why?"; qh_answer := JStr "Because.";
                 qh_user := "userA"; qh_pdf := JStr "X" |}) as (p & Hin & _).
  - left. reflexivity.
  - destruct Hin.
Qed.

Lemma history_refers_only_without_overlap_witness :
  let env := {| env_AI_SERVER_URL := None; env_NODEMAILER_USER := None;
                env_NODEMAILER_PASS := None |} in
  let w := {| gw := gateway_init; built := [];
              pdfs := [ {| pdf_id := "X"; pdf_filename := "x-1.pdf"; pdf_originalname := "x.pdf";
                           pdf_path := "uploads/x-1.pdf"; pdf_user := "userA" |} ];
              queries := [ {| qh_question := JStr "Why?"; qh_answer := JStr "Because.";
                              qh_user := "userA"; qh_pdf := JStr "X" |} ] |} in
  let req := {| req_user := "userA"; req_file := None; req_body := JUndefined |} in
  history_refers w /\ history_refers (fst (fst (deletePDF w req "X"))).
Proof.
  intros env w req.
  assert (H : history_refers w).
  { intros q [<-|[]]. eexists. split; [left; reflexivity|]. split; reflexivity. }
  split; [exact H|].
  exact (proj2 (proj2 (proj2
    (proj1 (history_refers_only_without_overlap env (fun _ => "id1") "b0")
       w req (NetNoResponse "timeout" None) "X" H)))).
Defined.

(** X7.  Ids stay unique: if no two stored PDFs share an id, this is still
    so after [queryPDF], [clearVectorData] and [deletePDF], and after
    [uploadPDF] provided the id given to the new document is not in use. *)
Theorem unique_ids_preserved (env : environment) (new_ObjectId : list pdf_doc -> string)
    (form_boundary : string) (w : world) (req : request) (net : net_outcome) (id : string) :
  unique_ids w ->
  ((forall p, In p (pdfs w) -> pdf_id p <> new_ObjectId (pdfs w)) ->
     unique_ids (fst (uploadPDF env new_ObjectId form_boundary w req net)))
  /\ unique_ids (fst (queryPDF env w req net))
  /\ unique_ids (fst (clearVectorData env w req net))
  /\ unique_ids (fst (fst (deletePDF w req id))).
Proof.
  intros Hu. unfold unique_ids in *. split; [|split; [|split]].
  - intros Hfresh.
    destruct (uploadPDF_stores env new_ObjectId form_boundary w req net) as [_ Hp].
    cbv zeta in Hp. destruct Hp as [-> | (p' & -> & Hid & _)]; [exact Hu|].
    rewrite map_app. simpl. apply List.NoDup_app; [exact Hu | |].
    + constructor; [intros []|constructor].
    + intros x Hx [<-|[]]. apply in_map_iff in Hx as (p & Hpid & Hp).
      apply (Hfresh p Hp). congruence.
  - now rewrite (proj1 (queryPDF_stores env w req net)).
  - now rewrite (proj1 (clearVectorData_stores env w req net)).
  - unfold deletePDF. destruct (PDF_findOne _ _ _); [|exact Hu].
    cbn [fst pdfs]. now apply deleteOne_ids.
Qed.

Lemma unique_ids_preserved_witness :
  let env := {| env_AI_SERVER_URL := None; env_NODEMAILER_USER := None;
                env_NODEMAILER_PASS := None |} in
  let w := {| gw := gateway_init; built := [];
              pdfs := [ {| pdf_id := "X"; pdf_filename := "x-1.pdf"; pdf_originalname := "x.pdf";
                           pdf_path := "uploads/x-1.pdf"; pdf_user := "userA" |} ];
              queries := [] |} in
  let req := {| req_user := "userB";
                req_file := Some {| file_filename := "y-1.pdf"; file_originalname := "y.pdf";
                                    file_path := "uploads/y-1.pdf" |};
                req_body := JUndefined |} in
  let net := NetResponse {| status := 200; data := JObj [ ("success", JBool true) ];
                            headers := ∅ |} in
  unique_ids w /\
  (forall p, In p (pdfs w) -> pdf_id p <> "Y") /\
  unique_ids (fst (uploadPDF env (fun _ => "Y") "b0" w req net)).
Proof.
  intros env w req net.
  assert (Hu : unique_ids w).
  { unfold unique_ids. simpl. constructor; [intros []|constructor]. }
  assert (Hf : forall p, In p (pdfs w) -> pdf_id p <> "Y").
  { intros p [<-|[]]. discriminate. }
  split; [exact Hu|]. split; [exact Hf|].
  exact (proj1 (unique_ids_preserved env (fun _ => "Y") "b0" w req net "X" Hu) Hf).
Defined.

Lemma find_app_none {A : Type} (f : A -> bool) (l l' : list A) :
  List.find f l = None -> List.find f (l ++ l') = List.find f l'.
Proof.
  induction l as [|x l IH]; simpl; [reflexivity|].
  destruct (f x); [discriminate | exact IH].
Qed.

(** X8.  Upload, then look up: after an acknowledged [uploadPDF] that got a
    fresh id, [getPDFById] with the id the upload returned gives the
    uploader 200 with the uploaded file's names, and gives every other user
    404. *)
Theorem upload_then_get (env : environment) (new_ObjectId : list pdf_doc -> string)
    (form_boundary : string) (w : world) (req : request) (f : upload_file)
    (net : net_outcome) (other : request) (o : origin) :
  req_file req = Some f ->
  upload_acknowledged net = true ->
  (forall p, In p (pdfs w) -> pdf_id p <> new_ObjectId (pdfs w)) ->
  let w' := fst (uploadPDF env new_ObjectId form_boundary w req net) in
  let id := new_ObjectId (pdfs w) in
  snd (getPDFById w' req id o) =
    reply 200 [ ("pdf", JObj [ ("_id", JStr id);
                               ("filename", JStr (file_filename f));
                               ("originalname", JStr (file_originalname f));
                               ("user", JStr (req_user req));
                               ("fileUrl", JStr (fileUrl o (file_filename f))) ]) ]
  /\ (req_user other <> req_user req ->
        snd (getPDFById w' other id o) =
          reply 404 [ ("error", JStr "PDF not found or not authorized") ]).
Proof.
  intros Hf Hack Hfresh w' id. subst w' id.
  destruct (uploadPDF_with_file env new_ObjectId form_boundary w req f net Hf)
    as (sent & _ & _ & ->).
  destruct net as [r|msg code|msg code]; [|discriminate|discriminate]. simpl in Hack.
  apply andb_prop in Hack as [Hv Hs]. unfold settle. rewrite Hv, Hs.
  cbn [negb fst]. unfold getPDFById, PDF_findOne. cbn [pdfs].
  assert (Hold : forall u, List.find (fun p => String.eqb (pdf_id p) (new_ObjectId (pdfs w))
                                         && String.eqb (pdf_user p) u) (pdfs w) = None).
  { intros u. destruct (List.find _ (pdfs w)) as [p|] eqn:E; [|reflexivity].
    apply List.find_some in E as [Hin Hb]. apply andb_prop in Hb as [Hi _].
    apply String.eqb_eq in Hi. exfalso. exact (Hfresh p Hin Hi). }
  split.
  - rewrite find_app_none by apply Hold. simpl. rewrite !String.eqb_refl. reflexivity.
  - intros Hne. rewrite find_app_none by apply Hold. simpl. rewrite String.eqb_refl.
    apply not_eq_sym in Hne. apply String.eqb_neq in Hne. rewrite Hne. reflexivity.
Qed.

Lemma upload_then_get_witness :
  let env := {| env_AI_SERVER_URL := None; env_NODEMAILER_USER := None;
                env_NODEMAILER_PASS := None |} in
  let w := {| gw := gateway_init; built := []; pdfs := []; queries := [] |} in
  let f := {| file_filename := "y-1.pdf"; file_originalname := "y.pdf";
              file_path := "uploads/y-1.pdf" |} in
  let req := {| req_user := "userB"; req_file := Some f; req_body := JUndefined |} in
  let other := {| req_user := "userA"; req_file := None; req_body := JUndefined |} in
  let net := NetResponse {| status := 201; data := JObj [ ("success", JBool true) ];
                            headers := ∅ |} in
  let o := {| req_protocol := "http"; req_host := Some "localhost:3000" |} in
  upload_acknowledged net = true /\
  snd (getPDFById (fst (uploadPDF env (fun _ => "Y") "b0" w req net)) other "Y" o) =
    reply 404 [ ("error", JStr "PDF not found or not authorized") ].
Proof.
  intros env w f req other net o.
  assert (Hack : upload_acknowledged net = true) by reflexivity.
  split; [exact Hack|].
  refine (proj2 (upload_then_get env (fun _ => "Y") "b0" w req f net other o eq_refl Hack _) _).
  - intros p [].
  - discriminate.
Defined.

(** X9.  Delete, then look up: with unique ids, once the owner has deleted
    a PDF no stored PDF has its id any more, so [getPDFById] answers 404 to
    every user and [queryPDF] on that id is turned away before any upstream
    exchange. *)
Theorem delete_then_gone (env : environment) (w : world) (req : request) (id : string)
    (other : request) (o : origin) (net : net_outcome) :
  unique_ids w ->
  (exists p, In p (pdfs w) /\ pdf_id p = id /\ pdf_user p = req_user req) ->
  let w' := fst (fst (deletePDF w req id)) in
  (forall p, In p (pdfs w') -> pdf_id p <> id)
  /\ snd (getPDFById w' other id o) = reply 404 [ ("error", JStr "PDF not found or not authorized") ]
  /\ (prop (req_body other) "pdfId" = JStr id ->
        query_admitted w' other = false /\ fst (queryPDF env w' other net) = w').
Proof.
  intros Hu (p & Hin & Hid & Hown) w'. subst w'. unfold deletePDF.
  destruct (findOne_owned _ _ _ _ Hin Hid Hown) as [p' Hf]. rewrite Hf.
  cbn [fst pdfs].
  destruct (deleteOne_ids (pdfs w) id Hu) as [_ Hgone].
  assert (Hnone : forall u, PDF_findOne (PDF_deleteOne (pdfs w) id) (JStr id) u = None).
  { intros u. apply findOne_not_owned. intros p0 Hp0 Heq. injection Heq as Heq.
    exfalso. exact (Hgone p0 Hp0 Heq). }
  split; [exact Hgone|]. split.
  - unfold getPDFById. cbn [pdfs]. now rewrite Hnone.
  - intros Hbody.
    assert (Hadm : query_admitted
              {| gw := gw w; built := built w; pdfs := PDF_deleteOne (pdfs w) id;
                 queries := QueryHistory_deleteMany (queries w) id |} other = false).
    { unfold query_admitted. destruct (destructure_error (req_body other)); [reflexivity|].
      cbn [pdfs]. rewrite Hbody, Hnone. simpl. now rewrite andb_false_r. }
    split; [exact Hadm | now apply queryPDF_not_admitted].
Qed.

Lemma delete_then_gone_witness :
  let env := {| env_AI_SERVER_URL := None; env_NODEMAILER_USER := None;
                env_NODEMAILER_PASS := None |} in
  let w := {| gw := gateway_init; built := [];
              pdfs := [ {| pdf_id := "X"; pdf_filename := "x-1.pdf"; pdf_originalname := "x.pdf";
                           pdf_path := "uploads/x-1.pdf"; pdf_user := "userA" |} ];
              queries := [] |} in
  let req := {| req_user := "userA"; req_file := None; req_body := JUndefined |} in
  let o := {| req_protocol := "http"; req_host := None |} in
  unique_ids w /\
  snd (getPDFById (fst (fst (deletePDF w req "X"))) req "X" o)
  = reply 404 [ ("error", JStr "PDF not found or not authorized") ].
Proof.
  intros env w req o.
  assert (Hu : unique_ids w).
  { unfold unique_ids. simpl. constructor; [intros []|constructor]. }
  split; [exact Hu|].
  refine (proj1 (proj2 (delete_then_gone env w req "X" req o (NetNoResponse "x" None) Hu _))).
  eexists. split; [left; reflexivity|]. split; reflexivity.
Defined.

(** ** The session store along a schedule *)

Lemma hook_step_lookup (u : string) (g : gateway) (ev : hook_event) :
  userCookies (hook_step g ev) !! u =
  match ev with
  | Receive v o =>
      match (if String.eqb v u then captured o else None) with
      | Some c => Some c
      | None => userCookies g !! u
      end
  | Transmit _ _ => userCookies g !! u
  end.
Proof.
  destruct ev as [v rq | v o]; simpl; [reflexivity|].
  rewrite on_response_captured.
  destruct (String.eqb v u) eqn:E.
  - apply String.eqb_eq in E. subst v.
    destruct (captured o); [apply lookup_insert_eq | reflexivity].
  - apply String.eqb_neq in E.
    destruct (captured o); [now apply lookup_insert_ne | reflexivity].
Qed.

Lemma run_hooks_lookup (u : string) (evs : list hook_event) (g : gateway) :
  userCookies (run_hooks g evs) !! u =
  match latest_capture u evs with
  | Some c => Some c
  | None => userCookies g !! u
  end.
Proof.
  revert g. induction evs as [|ev evs IH]; intros g; [reflexivity|].
  simpl. rewrite IH. destruct (latest_capture u evs); [reflexivity|].
  rewrite hook_step_lookup. destruct ev; reflexivity.
Qed.

(** X10.  Last write wins, by arrival: after any schedule, the credential
    stored for a user is the one written by the last response step that
    wrote one for that user, whatever order the requests went out in; if no
    step wrote one, the entry is as it was. *)
Theorem last_capture_wins (u : string) (evs : list hook_event) (g : gateway) :
  userCookies (run_hooks g evs) !! u =
  match latest_capture u evs with
  | Some c => Some c
  | None => userCookies g !! u
  end.
Proof. apply run_hooks_lookup. Qed.

(** X11.  No eviction: a user who has a stored credential still has one
    after any schedule, and a credential is only ever replaced by a
    captured one. *)
Theorem store_never_forgets (u c : string) (evs : list hook_event) (g : gateway) :
  userCookies g !! u = Some c ->
  exists c', userCookies (run_hooks g evs) !! u = Some c' /\
             (c' = c \/ captured_for u c' evs).
Proof.
  intros Hc. rewrite run_hooks_lookup, Hc.
  destruct (latest_capture u evs) as [c'|] eqn:E; [|eauto].
  exists c'. split; [reflexivity|]. right.
  clear Hc. induction evs as [|ev evs IH]; [discriminate|].
  simpl in E. destruct (latest_capture u evs) as [c0|].
  - injection E as ->. destruct (IH eq_refl) as (o & Hin & Ho).
    exists o. split; [right; exact Hin | exact Ho].
  - destruct ev as [v rq | v o]; [discriminate|].
    destruct (String.eqb v u) eqn:Ev; [|discriminate].
    apply String.eqb_eq in Ev. subst v.
    exists o. split; [left; reflexivity | exact E].
Qed.

Lemma store_never_forgets_witness :
  let g := {| userCookies := {["u1" := "sid=1"]}; wire := [] |} in
  let evs := [ Receive "u1" (NetResponse {| status := 404; data := JNull;
                                            headers := {["set-cookie" := HArr ["sid=2"]]} |});
               Receive "u2" (NetResponse {| status := 200; data := JNull;
                                            headers := {["set-cookie" := HArr ["sid=3"]]} |}) ] in
  userCookies g !! "u1" = Some "sid=1" /\
  exists c', userCookies (run_hooks g evs) !! "u1" = Some c' /\
             (c' = "sid=1" \/ captured_for "u1" c' evs).
Proof.
  intros g evs.
  assert (H : userCookies g !! "u1" = Some "sid=1") by reflexivity.
  split; [exact H|].
  exact (store_never_forgets "u1" "sid=1" evs g H).
Defined.

(** X13.  The request interceptor touches nothing but the [Cookie] header:
    path, body, timeout and every other header go out as the caller gave
    them.  [Cookie] is set to the user's stored credential when that is a
    non-empty string, and is otherwise left as the caller gave it. *)
Theorem interceptor_only_sets_cookie (u : string) (uc : gmap string string) (rq : outgoing) :
  let sent := intercept_request u uc rq in
  out_path sent = out_path rq
  /\ out_payload sent = out_payload rq
  /\ out_timeout sent = out_timeout rq
  /\ (forall k, k <> "Cookie" -> out_headers sent !! k = out_headers rq !! k)
  /\ (forall c, uc !! u = Some c -> c <> "" -> cookie_sent sent = Some c)
  /\ (uc !! u = None \/ uc !! u = Some "" -> cookie_sent sent = cookie_sent rq).
Proof.
  cbv zeta. unfold intercept_request, cookie_sent, on_request. cbn [out_path out_payload out_timeout out_headers].
  split; [reflexivity|]. split; [reflexivity|]. split; [reflexivity|]. split; [|split].
  - intros k Hk. destruct (uc !! u) as [c|]; [|reflexivity].
    destruct (JsString.truthy c); [|reflexivity].
    apply lookup_insert_ne. congruence.
  - intros c -> Hc. destruct c; [contradiction|]. simpl. apply lookup_insert_eq.
  - intros [-> | ->]; reflexivity.
Qed.

Lemma interceptor_only_sets_cookie_witness :
  let rq := {| out_path := "/query"; out_headers := {["Cookie" := "stale=1"]};
               out_payload := NoBody; out_timeout := 60000 |} in
  ({["u1" := "sid=9"]} : gmap string string) !! "u1" = Some "sid=9" /\
  cookie_sent (intercept_request "u1" {["u1" := "sid=9"]} rq) = Some "sid=9".
Proof.
  intros rq. split; [reflexivity|].
  refine (proj1 (proj2 (proj2 (proj2 (proj2
            (interceptor_only_sets_cookie "u1" {["u1" := "sid=9"]} rq))))) "sid=9" eq_refl _).
  discriminate.
Defined.

(** ** The handlers as schedules *)





Example unusable_base_address_answers_500 :
  let env := {| env_AI_SERVER_URL := Some "localhost:5000"; env_NODEMAILER_USER := None;
                env_NODEMAILER_PASS := None |} in
  let w := {| gw := gateway_init; built := []; pdfs := []; queries := [] |} in
  let req := {| req_user := "userA"; req_file := None; req_body := JUndefined |} in
  let out := clearVectorData env w req (NetNotSent "Unsupported protocol 127.0.0.1:" None) in
  AI_SERVER_URL env = "127.0.0.1:5000" /\
  snd out = reply 500 [ ("error", JStr "Error clearing vector data: Unsupported protocol 127.0.0.1:") ] /\
  wire (gw (fst out)) = [] /\ length (built (fst out)) = 1%nat.
Proof. vm_compute. repeat split. Qed.

(** ** Failures and pass-through in the gateway handlers *)

(** X15.  When no response arrives (connection refused, timeout, DNS), all
    three handlers answer 503 and leave the session store, the PDFs and the
    history as they were.  [queryPDF] and [clearVectorData] give a fixed
    message; [uploadPDF] names the upstream address and passes the
    low-level message on in [details], unless the code is [ECONNREFUSED]. *)
Theorem transport_failure_503 (env : environment) (new_ObjectId : list pdf_doc -> string)
    (form_boundary : string) (w : world) (req : request) (msg : string) (code : option string) :
  let net := NetNoResponse msg code in
  let unreachable :=
    reply 503 [ ("error", JStr "Unable to connect to AI server. Please ensure the AI server is running.") ] in
  (forall f, req_file req = Some f ->
     snd (uploadPDF env new_ObjectId form_boundary w req net) =
     reply 503
       [ ("error", JStr ("Unable to connect to AI server. Please ensure the AI server is running on "
                         +:+ AI_SERVER_URL env));
         ("details", JStr (if bool_decide (code = Some "ECONNREFUSED")
                           then "Connection refused - AI server may not be running"
                           else msg)) ])
  /\ (query_admitted w req = true -> snd (queryPDF env w req net) = unreachable)
  /\ snd (clearVectorData env w req net) = unreachable
  /\ (forall op,
        let w' := fst (handler env new_ObjectId form_boundary op w req net) in
        userCookies (gw w') = userCookies (gw w) /\ pdfs w' = pdfs w /\ queries w' = queries w).
Proof.
  cbv zeta. split; [|split; [|split]].
  - intros f Hf. erewrite uploadPDF_rejected; [| exact Hf | reflexivity]. reflexivity.
  - intros Hadm. destruct (queryPDF_admitted env w req (NetNoResponse msg code) Hadm)
      as (sent & _ & _ & ->). reflexivity.
  - erewrite clearVectorData_rejected; [| reflexivity]. reflexivity.
  - intros [| |]; simpl handler.
    + unfold uploadPDF. destruct (req_file req); repeat split.
    + destruct (query_admitted w req) eqn:Hadm.
      * destruct (queryPDF_admitted env w req (NetNoResponse msg code) Hadm)
          as (sent & _ & _ & ->). repeat split.
      * rewrite (queryPDF_not_admitted env w req _ Hadm). repeat split.
    + repeat split.
Qed.

Lemma transport_failure_503_witness :
  let env := {| env_AI_SERVER_URL := Some "http://localhost:5000"; env_NODEMAILER_USER := None;
                env_NODEMAILER_PASS := None |} in
  let w := {| gw := gateway_init; built := []; pdfs := []; queries := [] |} in
  let f := {| file_filename := "x-1.pdf"; file_originalname := "x.pdf";
              file_path := "uploads/x-1.pdf" |} in
  let req := {| req_user := "userA"; req_file := Some f; req_body := JUndefined |} in
  req_file req = Some f /\
  snd (uploadPDF env (fun _ => "id1") "b0" w req
         (NetNoResponse "connect ECONNREFUSED 127.0.0.1:5000" (Some "ECONNREFUSED"))) =
  reply 503
    [ ("error", JStr "Unable to connect to AI server. Please ensure the AI server is running on http://127.0.0.1:5000");
      ("details", JStr "Connection refused - AI server may not be running") ].
Proof.
  intros env w f req. split; [reflexivity|].
  exact (proj1 (transport_failure_503 env (fun _ => "id1") "b0" w req
                  "connect ECONNREFUSED 127.0.0.1:5000" (Some "ECONNREFUSED")) f eq_refl).
Defined.

(** X16.  For an upstream error response, [queryPDF] and [clearVectorData]
    echo the upstream status whatever it is (500 only if the status is 0),
    with the body's message, else its error, else a generic text.  So an
    upstream status from 500 up reaches the caller unchanged there, while
    [uploadPDF] turns it into 502. *)
Theorem passthrough_echoes_status (env : environment) (new_ObjectId : list pdf_doc -> string)
    (form_boundary : string) (w : world) (req : request) (r : response) :
  validateStatus (status r) = false ->
  let echoed :=
    reply (if status r =? 0 then 500 else status r)
      [ ("error", prop (data r) "message" ||| prop (data r) "error" ||| JStr "Error from AI server") ] in
  (query_admitted w req = true -> snd (queryPDF env w req (NetResponse r)) = echoed)
  /\ snd (clearVectorData env w req (NetResponse r)) = echoed
  /\ (500 <= status r ->
        res_status echoed = status r /\
        forall f, req_file req = Some f ->
          res_status (snd (uploadPDF env new_ObjectId form_boundary w req (NetResponse r))) = 502).
Proof.
  intros Hv. cbv zeta.
  destruct (settle_error_response r Hv) as (e & Hs & Hr).
  split; [|split].
  - intros Hadm. destruct (queryPDF_admitted env w req (NetResponse r) Hadm)
      as (sent & _ & _ & ->).
    rewrite Hs. unfold query_catch, passthrough_catch. now rewrite Hr.
  - rewrite (clearVectorData_rejected env w req _ e Hs).
    unfold clear_catch, passthrough_catch. now rewrite Hr.
  - intros Hge. split.
    + cbn [reply res_status]. destruct (status r =? 0) eqn:E; [lia | reflexivity].
    + intros f Hf.
      rewrite (uploadPDF_rejected env new_ObjectId form_boundary w req f _ e Hf Hs).
      unfold upload_catch. rewrite Hr.
      destruct (status r =? 403) eqn:E1; [lia|].
      destruct (status r =? 400) eqn:E2; [lia|].
      destruct (status r =? 500); [reflexivity|].
      cbn [reply res_status]. destruct (500 <=? status r) eqn:E3; [reflexivity | lia].
Qed.

Lemma passthrough_echoes_status_witness :
  let env := {| env_AI_SERVER_URL := None; env_NODEMAILER_USER := None;
                env_NODEMAILER_PASS := None |} in
  let w := {| gw := gateway_init; built := []; pdfs := []; queries := [] |} in
  let req := {| req_user := "userA"; req_file := None; req_body := JUndefined |} in
  let r := {| status := 500; data := JObj [ ("error", JStr "vector store is down") ];
              headers := ∅ |} in
  validateStatus (status r) = false /\
  snd (clearVectorData env w req (NetResponse r)) = reply 500 [ ("error", JStr "vector store is down") ].
Proof.
  intros env w req r.
  assert (Hv : validateStatus (status r) = false) by reflexivity.
  split; [exact Hv|].
  exact (proj1 (proj2 (passthrough_echoes_status env (fun _ => "id1") "b0" w req r Hv))).
Defined.

(** X17.  [clearVectorData] validates nothing and inspects no body: it
    always performs the exchange, and any response axios resolves is handed
    back under [data] with status 200, whatever its shape, even a body that
    says [success: false]. *)
Theorem reset_passes_body_through (env : environment) (w : world) (req : request) (r : response) :
  validateStatus (status r) = true ->
  let out := clearVectorData env w req (NetResponse r) in
  snd out = reply 200 [ ("message", JStr "Vector data cleared successfully"); ("data", data r) ]
  /\ length (wire (gw (fst out))) = S (length (wire (gw w)))
  /\ pdfs (fst out) = pdfs w /\ queries (fst out) = queries w.
Proof.
  intros Hv. cbv zeta. unfold clearVectorData, getAiAxiosForUser, post, settle. cbv zeta.
  rewrite Hv. cbn [transmitted fst snd gw with_gw hook_step wire pdfs queries].
  rewrite length_app. simpl. repeat split. lia.
Qed.

Lemma reset_passes_body_through_witness :
  let env := {| env_AI_SERVER_URL := None; env_NODEMAILER_USER := None;
                env_NODEMAILER_PASS := None |} in
  let w := {| gw := gateway_init; built := []; pdfs := []; queries := [] |} in
  let req := {| req_user := "userA"; req_file := None; req_body := JUndefined |} in
  let r := {| status := 200; data := JObj [ ("success", JBool false) ]; headers := ∅ |} in
  validateStatus (status r) = true /\
  snd (clearVectorData env w req (NetResponse r)) =
  reply 200 [ ("message", JStr "Vector data cleared successfully");
              ("data", JObj [ ("success", JBool false) ]) ].
Proof.
  intros env w req r.
  assert (Hv : validateStatus (status r) = true) by reflexivity.
  split; [exact Hv|].
  exact (proj1 (reset_passes_body_through env w req r Hv)).
Defined.

(** ** Mail with credentials present *)

Lemma invalid_email_iff (email : jsval) :
  Mail.invalid_email email = false <-> exists addr, email = JStr addr /\ occurs_in "@" addr.
Proof.
  split.
  - destruct email; simpl; try discriminate. intros H.
    apply orb_false_iff in H as [_ H]. apply negb_false_iff in H.
    exists s. split; [reflexivity | now apply includes_iff].
  - intros (addr & -> & Hocc). simpl. apply orb_false_iff. split.
    + destruct addr; [|reflexivity].
      destruct Hocc as (pre & post & H). destruct pre; discriminate H.
    + apply negb_false_iff. now apply includes_iff.
Qed.

(** X18.  [mailSender] resolves, with the message id nodemailer returned,
    exactly when the address is a string containing [@], both credentials
    are set, [verify()] succeeds and [sendMail] succeeds for the mail to
    that address with the given subject and body; in every other case the
    promise is rejected. *)
Theorem mailSender_delivers_iff (env : environment) (net : Mail.smtp) (email : jsval)
    (subject body id : string) :
  fst (Mail.mailSender env net email subject body) = inr id <->
  exists addr,
    email = JStr addr /\ occurs_in "@" addr /\
    Mail.credentials_missing env = false /\
    Mail.smtp_verify net = None /\
    Mail.smtp_sendMail net {| Mail.mail_from := Mail.sender "PDF Q&A" env;
                              Mail.mail_to := addr;
                              Mail.mail_subject := subject;
                              Mail.mail_content := body |} = inr id.
Proof.
  unfold Mail.mailSender, Mail.createTransporter. split.
  - destruct (Mail.invalid_email email) eqn:Hinv; [discriminate|].
    apply invalid_email_iff in Hinv as (addr & -> & Hocc).
    destruct (Mail.credentials_missing env); [discriminate|].
    destruct (Mail.smtp_verify net); [discriminate|].
    simpl to_string.
    destruct (Mail.smtp_sendMail net _) eqn:Hs; [discriminate|].
    simpl. intros [= ->]. exists addr. auto.
  - intros (addr & -> & Hocc & Hc & Hv & Hs).
    assert (Hinv : Mail.invalid_email (JStr addr) = false)
      by (apply invalid_email_iff; eauto).
    rewrite Hinv, Hc, Hv. simpl to_string. rewrite Hs. reflexivity.
Qed.

(** X19.  [mailSender] closes what it opens: nodemailer is not touched at
    all when the address is invalid or a credential is missing; otherwise
    the transporter is created once, verified, and closed as the last step
    on every path, and a mail is handed over only after [verify()]
    succeeded, and at most once. *)
Theorem mailSender_closes_transporter (env : environment) (net : Mail.smtp) (email : jsval)
    (subject body : string) :
  let tr := snd (Mail.mailSender env net email subject body) in
  (tr = [] /\ (Mail.invalid_email email = true \/ Mail.credentials_missing env = true))
  \/ (Mail.invalid_email email = false /\ Mail.credentials_missing env = false /\
      exists user pass mid,
        tr = Mail.CreateTransport user pass :: mid ++ [Mail.Close] /\
        ((mid = [Mail.Verify] /\ Mail.smtp_verify net <> None)
         \/ (exists m, mid = [Mail.Verify; Mail.SendMail m] /\ Mail.smtp_verify net = None))).
Proof.
  cbv zeta. unfold Mail.mailSender, Mail.createTransporter.
  destruct (Mail.invalid_email email); [left; auto|].
  destruct (Mail.credentials_missing env); [left; auto|].
  right. split; [reflexivity|]. split; [reflexivity|].
  destruct (Mail.smtp_verify net) as [e|].
  - do 2 eexists. exists [Mail.Verify].
    split; [reflexivity|]. left. split; [reflexivity | discriminate].
  - destruct (Mail.smtp_sendMail net _); do 2 eexists;
      eexists [Mail.Verify; Mail.SendMail _];
      (split; [reflexivity|]; right; eexists; split; reflexivity).
Qed.

(** X20.  The OTP hook never blocks a save and its result does not depend
    on how SMTP answers: it always calls [next()] without an error.  It
    sends nothing for a document that is not new; for a new one with both
    credentials set it hands over exactly one mail, addressed to the
    document's email, whose text contains the code. *)
Theorem otp_hook_never_blocks (env : environment) (net : Mail.smtp) (isNew : bool)
    (doc : Mail.otp_doc) :
  fst (Mail.otp_pre_save env net isNew doc) = Mail.Next
  /\ (forall net', Mail.otp_pre_save env net' isNew doc = Mail.otp_pre_save env net isNew doc)
  /\ (isNew = false -> snd (Mail.otp_pre_save env net isNew doc) = [])
  /\ (isNew = true -> Mail.credentials_missing env = false ->
        exists user pass m,
          snd (Mail.otp_pre_save env net isNew doc) = [Mail.CreateTransport user pass; Mail.SendMail m]
          /\ Mail.mail_to m = Mail.otp_email doc
          /\ Mail.mail_subject m = "Your OTP Code"
          /\ occurs_in (Mail.otp_otp doc) (Mail.mail_content m)).
Proof.
  unfold Mail.otp_pre_save. split; [|split; [|split]].
  - destruct isNew; [|reflexivity].
    destruct (Mail.credentials_missing env); [reflexivity|].
    destruct (Mail.smtp_sendMail net _); reflexivity.
  - intros net'. destruct isNew; [|reflexivity].
    destruct (Mail.credentials_missing env); [reflexivity|].
    destruct (Mail.smtp_sendMail net _), (Mail.smtp_sendMail net' _); reflexivity.
  - intros ->. reflexivity.
  - intros -> ->. do 3 eexists.
    destruct (Mail.smtp_sendMail net _);
      (split; [reflexivity|]; split; [reflexivity|]; split; [reflexivity|];
       exists "Your OTP is ", " (valid for 5 minutes)"; reflexivity).
Qed.

Lemma otp_hook_never_blocks_witness :
  let env := {| env_AI_SERVER_URL := None; env_NODEMAILER_USER := Some "bot@example.com";
                env_NODEMAILER_PASS := Some "secret" |} in
  let net := {| Mail.smtp_verify := None;
                Mail.smtp_sendMail := fun _ => inl (Mail.thrown "read ETIMEDOUT") |} in
  let doc := {| Mail.otp_email := "a@b.io"; Mail.otp_otp := "123456" |} in
  Mail.credentials_missing env = false /\
  exists user pass m,
    snd (Mail.otp_pre_save env net true doc) = [Mail.CreateTransport user pass; Mail.SendMail m]
    /\ Mail.mail_to m = "a@b.io"
    /\ Mail.mail_subject m = "Your OTP Code"
    /\ occurs_in "123456" (Mail.mail_content m).
Proof.
  intros env net doc.
  assert (H : Mail.credentials_missing env = false) by reflexivity.
  split; [exact H|].
  exact (proj2 (proj2 (proj2 (otp_hook_never_blocks env net true doc))) eq_refl H).
Defined.

(** A document passes the schema exactly when its email passes the email
    validators and its code has at least six characters. *)
Lemma validate_passes_iff (doc : Mail.otp_doc) :
  Mail.validate doc = [] <->
  otp_email_valid (Mail.otp_email doc) = true /\
  (6 <= JsString.utf16_length (Mail.otp_otp doc))%nat.
Proof.
  unfold Mail.validate, Mail.email_error, Mail.otp_error, otp_email_valid.
  destruct (Mail.otp_email doc) as [|a e]; simpl JsString.truthy; simpl negb; cbv iota.
  - split; [discriminate | intros [H _]; discriminate H].
  - rewrite andb_true_l, orb_false_l.
    destruct (Pattern.test Pattern.email (String a e));
      [|split; [discriminate | intros [H _]; discriminate H]].
    destruct (Mail.otp_otp doc) as [|c o]; simpl JsString.truthy; simpl negb; cbv iota.
    + split; [discriminate | intros [_ H]; simpl in H; lia].
    + destruct (JsString.utf16_length (String c o) <? 6)%nat eqn:E.
      * apply Nat.ltb_lt in E. split; [discriminate | intros [_ H]; lia].
      * apply Nat.ltb_ge in E. split; [auto | reflexivity].
Qed.

(** X21.  [OTP.create] and the schema.  A document that fails a validator
    is refused with the validators' messages before the hook runs, so
    nothing is mailed.  For a document that passes, the store keeps at most
    one record per email: an address not yet stored is added after the
    existing records, an address already stored is refused at the unique
    index.  The hook runs before that write, so with both credentials set
    the mail with the refused code has been handed over all the same. *)
Theorem otp_one_record_per_email (env : environment) (net : Mail.smtp)
    (store : list Mail.otp_doc) (doc : Mail.otp_doc) :
  List.NoDup (map Mail.otp_email store) ->
  let out := Mail.OTP_create env net store doc in
  (Mail.validate doc <> [] ->
     out = (inl (Mail.ValidationFailed (Mail.validate doc)), []))
  /\ (Mail.validate doc = [] ->
        ~ In (Mail.otp_email doc) (map Mail.otp_email store) ->
        fst out = inr (store ++ [doc]) /\
        List.NoDup (map Mail.otp_email (store ++ [doc])))
  /\ (Mail.validate doc = [] ->
        In (Mail.otp_email doc) (map Mail.otp_email store) ->
        fst out = inl (Mail.DuplicateKey (Mail.otp_email doc)) /\
        (Mail.credentials_missing env = false -> existsb Mail.is_send (snd out) = true)).
Proof.
  intros Hnd. cbv zeta. unfold Mail.OTP_create.
  assert (Hex : existsb (fun d => String.eqb (Mail.otp_email d) (Mail.otp_email doc)) store = true
                <-> In (Mail.otp_email doc) (map Mail.otp_email store)).
  { rewrite existsb_exists, in_map_iff. split.
    - intros (d & Hin & He). apply String.eqb_eq in He. eauto.
    - intros (d & He & Hin). exists d. split; [exact Hin | now apply String.eqb_eq]. }
  pose proof (otp_hook_calls_next env net true doc) as Hnext.
  destruct (Mail.otp_pre_save env net true doc) as [n evs] eqn:Hhook.
  simpl in Hnext. subst n. split; [|split].
  - intros Hbad. destruct (Mail.validate doc); [contradiction | reflexivity].
  - intros -> Hfresh.
    destruct (existsb _ store) eqn:E; [exfalso; apply Hfresh, Hex; reflexivity|].
    split; [reflexivity|].
    rewrite map_app. apply List.NoDup_app; [exact Hnd | |].
    + simpl. constructor; [intros []|constructor].
    + intros x Hx [<-|[]]. contradiction.
  - intros -> Hdup. apply Hex in Hdup. rewrite Hdup. split; [reflexivity|].
    intros Hc. cbn [snd]. unfold Mail.otp_pre_save in Hhook. rewrite Hc in Hhook.
    destruct (Mail.smtp_sendMail net _); injection Hhook as <-; reflexivity.
Qed.

Lemma otp_one_record_per_email_witness :
  let env := {| env_AI_SERVER_URL := None; env_NODEMAILER_USER := Some "bot@example.com";
                env_NODEMAILER_PASS := Some "secret" |} in
  let net := {| Mail.smtp_verify := None; Mail.smtp_sendMail := fun _ => inr "<id-1>" |} in
  let store := [ {| Mail.otp_email := "a@b.io"; Mail.otp_otp := "111111" |} ] in
  let doc := {| Mail.otp_email := "a@b.io"; Mail.otp_otp := "222222" |} in
  List.NoDup (map Mail.otp_email store) /\
  Mail.validate doc = [] /\
  In (Mail.otp_email doc) (map Mail.otp_email store) /\
  fst (Mail.OTP_create env net store doc) = inl (Mail.DuplicateKey "a@b.io").
Proof.
  intros env net store doc.
  assert (Hnd : List.NoDup (map Mail.otp_email store)).
  { simpl. constructor; [intros []|constructor]. }
  assert (Hv : Mail.validate doc = []) by (vm_compute; reflexivity).
  assert (Hin : In (Mail.otp_email doc) (map Mail.otp_email store)) by (left; reflexivity).
  split; [exact Hnd|]. split; [exact Hv|]. split; [exact Hin|].
  exact (proj1 (proj2 (proj2 (otp_one_record_per_email env net store doc Hnd)) Hv Hin)).
Defined.

Example otp_invalid_document_refused :
  let env := {| env_AI_SERVER_URL := None; env_NODEMAILER_USER := Some "bot@example.com";
                env_NODEMAILER_PASS := Some "secret" |} in
  let net := {| Mail.smtp_verify := None; Mail.smtp_sendMail := fun _ => inr "<id-1>" |} in
  Mail.OTP_create env net [] {| Mail.otp_email := "first last@example.com"; Mail.otp_otp := "1" |}
  = (inl (Mail.ValidationFailed [ ("email", "Invalid email");
                                  ("otp", "OTP must be 6 characters long") ]), []).
Proof. vm_compute. reflexivity. Qed.

(** ** The email pattern of the OTP schema *)

Example email_accepts_dotted :
  otp_email_valid "john.doe@mail.example.com" = true.
Proof. vm_compute. reflexivity. Qed.

Example email_rejects_plus_and_long_tld :
  otp_email_valid "a+b@example.com" = false /\ otp_email_valid "a@example.info" = false.
Proof. vm_compute. split; reflexivity. Qed.

Lemma app_nil_r_s (s : string) : s +:+ "" = s.
Proof. induction s as [|c s IH]; unfold_app; congruence. Qed.

Lemma app_eq_nil_s (s t : string) : s +:+ t = "" -> s = "" /\ t = "".
Proof. destruct s; unfold_app; [auto | discriminate]. Qed.

Lemma matches_seq_inv (a b : Pattern.regex) (u : string) :
  matches (Pattern.Seq a b) u -> exists s t, u = s +:+ t /\ matches a s /\ matches b t.
Proof. inversion 1; subst; eauto. Qed.

Lemma matches_or_inv (a b : Pattern.regex) (u : string) :
  matches (Pattern.Or a b) u -> matches a u \/ matches b u.
Proof. inversion 1; subst; auto. Qed.

Lemma matches_class_inv (p : ascii -> bool) (u : string) :
  matches (Pattern.Class p) u -> exists c, u = String c "" /\ p c = true.
Proof. inversion 1; subst; eauto. Qed.

Lemma matches_empty_inv (u : string) : matches Pattern.Empty u -> u = "".
Proof. inversion 1; reflexivity. Qed.

Lemma matches_never_inv (u : string) : ~ matches Pattern.Never u.
Proof. inversion 1. Qed.

Lemma nullable_iff (r : Pattern.regex) : Pattern.nullable r = true <-> matches r "".
Proof.
  induction r as [| |p|a IHa b IHb|a IHa b IHb|a IHa]; simpl.
  - split; [discriminate | intros H; destruct (matches_never_inv _ H)].
  - split; [constructor | reflexivity].
  - split; [discriminate|]. intros H. apply matches_class_inv in H as (c & Hc & _). discriminate.
  - rewrite andb_true_iff, IHa, IHb. split.
    + intros [Ha Hb]. exact (MSeq a b "" "" Ha Hb).
    + intros H. apply matches_seq_inv in H as (s & t & Hst & Ha & Hb).
      symmetry in Hst. apply app_eq_nil_s in Hst as [-> ->]. auto.
  - rewrite orb_true_iff, IHa, IHb. split.
    + intros [H|H]; [now apply MOrL | now apply MOrR].
    + apply matches_or_inv.
  - split; [constructor | reflexivity].
Qed.

(** A non-empty match of a star starts with a non-empty match of its body. *)
Lemma matches_star_cons (a : Pattern.regex) (c : ascii) (u : string) :
  matches (Pattern.Star a) (String c u) ->
  exists s t, u = s +:+ t /\ matches a (String c s) /\ matches (Pattern.Star a) t.
Proof.
  intros H. remember (Pattern.Star a) as r eqn:Hr. remember (String c u) as v eqn:Hv.
  revert u Hv. induction H as [| | | | | |a' s t Hs _ Ht IHt]; intros u Hv; try discriminate.
  injection Hr as ->. destruct s as [|c' s].
  - rewrite app_nil_s in Hv. apply IHt; [reflexivity | exact Hv].
  - rewrite app_cons_s in Hv. injection Hv as -> <-. eauto.
Qed.

Lemma derive_iff (r : Pattern.regex) (c : ascii) (u : string) :
  matches (Pattern.derive c r) u <-> matches r (String c u).
Proof.
  revert u. induction r as [| |p|a IHa b IHb|a IHa b IHb|a IHa]; intros u; simpl.
  - split; intros H; destruct (matches_never_inv _ H).
  - split; intros H; [destruct (matches_never_inv _ H)|].
    apply matches_empty_inv in H. discriminate.
  - split.
    + destruct (p c) eqn:E; intros H; [|destruct (matches_never_inv _ H)].
      apply matches_empty_inv in H. subst. now constructor.
    + intros H. apply matches_class_inv in H as (c' & Hc & Hp). injection Hc as <- ->.
      rewrite Hp. constructor.
  - assert (Hfwd : forall v, matches (Pattern.Seq (Pattern.derive c a) b) v ->
                             matches (Pattern.Seq a b) (String c v)).
    { intros v H. apply matches_seq_inv in H as (s & t & -> & Ha & Hb).
      apply IHa in Ha. exact (MSeq a b (String c s) t Ha Hb). }
    split.
    + destruct (Pattern.nullable a) eqn:En; [|apply Hfwd].
      intros H. apply matches_or_inv in H as [H|H]; [now apply Hfwd|].
      apply nullable_iff in En. apply IHb in H.
      exact (MSeq a b "" (String c u) En H).
    + intros H. apply matches_seq_inv in H as (s & t & Hst & Ha & Hb).
      destruct s as [|c' s]; unfold_app.
      * subst t. apply nullable_iff in Ha. rewrite Ha. apply MOrR. now apply IHb.
      * injection Hst as <- ->. apply IHa in Ha.
        pose proof (MSeq _ _ _ _ Ha Hb) as Hseq.
        destruct (Pattern.nullable a); [now apply MOrL | exact Hseq].
  - split.
    + intros H. apply matches_or_inv in H as [H|H];
        [apply MOrL; now apply IHa | apply MOrR; now apply IHb].
    + intros H. apply matches_or_inv in H as [H|H];
        [apply MOrL; now apply IHa | apply MOrR; now apply IHb].
  - split.
    + intros H. apply matches_seq_inv in H as (s & t & -> & Ha & Hb).
      apply IHa in Ha. exact (MStarMore a (String c s) t Ha Hb).
    + intros H. apply matches_star_cons in H as (s & t & -> & Ha & Hb).
      apply IHa in Ha. now constructor.
Qed.

(** The derivative test accepts exactly the strings the pattern denotes. *)
Lemma test_iff (r : Pattern.regex) (s : string) : Pattern.test r s = true <-> matches r s.
Proof.
  revert r. induction s as [|c s IH]; intros r; simpl.
  - apply nullable_iff.
  - rewrite IH. apply derive_iff.
Qed.

Lemma otp_email_valid_iff (s : string) :
  otp_email_valid s = true <-> matches Pattern.email s.
Proof.
  unfold otp_email_valid. rewrite <- test_iff.
  destruct s as [|c s]; [split; [discriminate | intros H; exact H]|].
  simpl JsString.truthy. simpl negb. rewrite andb_true_l, orb_false_l. reflexivity.
Qed.

Lemma all_chars_app (p : ascii -> bool) (s t : string) :
  all_chars p (s +:+ t) = all_chars p s && all_chars p t.
Proof.
  induction s as [|c s IH]; unfold_app; simpl; [reflexivity|].
  now rewrite IH, andb_assoc.
Qed.

Lemma classes_sound (p : ascii -> bool) (r : Pattern.regex) (s : string) :
  classes_within p r -> matches r s -> all_chars p s = true.
Proof.
  intros Hw Hm. induction Hm as [|q c Hq|a b s t _ IHs _ IHt|a b s _ IH|a b s _ IH| |a s t _ IHs _ IHt];
    simpl in Hw.
  - reflexivity.
  - simpl. now rewrite (Hw c Hq).
  - destruct Hw as [Ha Hb]. now rewrite all_chars_app, IHs, IHt.
  - destruct Hw as [Ha Hb]. now apply IH.
  - destruct Hw as [Ha Hb]. now apply IH.
  - reflexivity.
  - rewrite all_chars_app, IHs, IHt; auto.
Qed.

Ltac class_within :=
  cbv [classes_within Pattern.email Pattern.labels Pattern.suffix Pattern.plus
       Pattern.opt Pattern.w Pattern.lit];
  repeat split; intros c H;
  first [ apply Ascii.eqb_eq in H; subst c; reflexivity
        | unfold label_char, address_char; rewrite H, ?orb_true_r; reflexivity ].

Lemma labels_within : classes_within label_char Pattern.labels.
Proof. class_within. Qed.

Lemma suffix_within : classes_within label_char Pattern.suffix.
Proof. class_within. Qed.

Lemma labels_nonempty (s : string) : matches Pattern.labels s -> s <> "".
Proof.
  intros H. apply matches_seq_inv in H as (s1 & t1 & -> & H1 & _).
  apply matches_seq_inv in H1 as (s2 & t2 & -> & H2 & _).
  apply matches_class_inv in H2 as (c & -> & _). discriminate.
Qed.

Lemma suffix_inv (x : string) :
  matches Pattern.suffix x ->
  exists tld, x = String "." tld /\ all_chars Pattern.word_char tld = true /\
              (2 <= String.length tld <= 3)%nat.
Proof.
  intros H. apply matches_seq_inv in H as (d & r1 & -> & Hd & H1).
  apply matches_class_inv in Hd as (c & -> & Hc). apply Ascii.eqb_eq in Hc. subst c.
  apply matches_seq_inv in H1 as (x1 & r2 & -> & Hx1 & H2).
  apply matches_class_inv in Hx1 as (c1 & -> & Hc1).
  apply matches_seq_inv in H2 as (x2 & r3 & -> & Hx2 & H3).
  apply matches_class_inv in Hx2 as (c2 & -> & Hc2).
  apply matches_or_inv in H3 as [H3|H3].
  - apply matches_empty_inv in H3. subst.
    exists (String c1 (String c2 "")). simpl. rewrite Hc1, Hc2. repeat split; lia.
  - apply matches_class_inv in H3 as (c3 & -> & Hc3).
    exists (String c1 (String c2 (String c3 ""))). simpl. rewrite Hc1, Hc2, Hc3.
    repeat split; lia.
Qed.

(** A non-empty run of suffixes ends with a last one. *)
Lemma suffixes_last (t : string) :
  matches (Pattern.Star Pattern.suffix) t ->
  t = "" \/
  exists pre tld, t = pre +:+ String "." tld /\ all_chars label_char pre = true /\
                  all_chars Pattern.word_char tld = true /\ (2 <= String.length tld <= 3)%nat.
Proof.
  intros H. remember (Pattern.Star Pattern.suffix) as r eqn:Hr.
  induction H as [| | | | | |a s t Hs _ Ht IHt]; try discriminate; [left; reflexivity|].
  injection Hr as ->. right.
  destruct (IHt eq_refl) as [-> | (pre & tld & -> & Hpre & Htld & Hlen)].
  - destruct (suffix_inv s Hs) as (tld & -> & Htld & Hlen).
    exists "", tld. rewrite app_nil_r_s. auto.
  - exists (s +:+ pre), tld. rewrite app_assoc_s. split; [reflexivity|].
    split; [|auto].
    rewrite all_chars_app, Hpre, andb_true_r.
    exact (classes_sound label_char _ s suffix_within Hs).
Qed.

Lemma email_shape (s : string) :
  otp_email_valid s = true ->
  exists local rest tld,
    s = local +:+ "@" +:+ rest +:+ "." +:+ tld
    /\ local <> "" /\ rest <> ""
    /\ all_chars label_char local = true
    /\ all_chars label_char rest = true
    /\ all_chars Pattern.word_char tld = true
    /\ (2 <= String.length tld <= 3)%nat
    /\ label_char "@" = false.
Proof.
  intros H. apply otp_email_valid_iff in H.
  apply matches_seq_inv in H as (a & r1 & -> & Ha & H1).
  apply matches_seq_inv in H1 as (at_ & r2 & -> & Hat & H2).
  apply matches_class_inv in Hat as (c & -> & Hc). apply Ascii.eqb_eq in Hc. subst c.
  apply matches_seq_inv in H2 as (b & t & -> & Hb & Ht).
  apply matches_seq_inv in Ht as (t1 & t2 & -> & Ht1 & Ht2).
  pose proof (labels_nonempty a Ha) as Hane.
  pose proof (labels_nonempty b Hb) as Hbne.
  pose proof (classes_sound label_char _ a labels_within Ha) as Hac.
  pose proof (classes_sound label_char _ b labels_within Hb) as Hbc.
  destruct (suffixes_last t2 Ht2) as [-> | (pre & tld & -> & Hpre & Htld & Hlen)].
  - destruct (suffix_inv t1 Ht1) as (tld & -> & Htld & Hlen).
    exists a, b, tld. rewrite app_nil_r_s. repeat split; auto; lia.
  - exists a, (b +:+ t1 +:+ pre), tld. repeat split; auto; try lia.
    + unfold_app. rewrite !app_assoc_s. reflexivity.
    + intros Hnil. apply app_eq_nil_s in Hnil as [Hnil _]. contradiction.
    + rewrite !all_chars_app, Hbc, Hpre, andb_true_r. simpl.
      exact (classes_sound label_char _ t1 suffix_within Ht1).
Qed.


(** X22.  An address the OTP schema accepts has the shape
    [local@rest.tld]: a non-empty local part, a non-empty rest and a last
    label of two or three word characters.  Local part and rest consist of
    word characters, dots and dashes only, so the address has exactly one
    [@]. *)
Theorem accepted_email_shape (s : string) :
  otp_email_valid s = true ->
  exists local rest tld,
    s = local +:+ "@" +:+ rest +:+ "." +:+ tld
    /\ local <> "" /\ rest <> ""
    /\ all_chars label_char local = true
    /\ all_chars label_char rest = true
    /\ all_chars Pattern.word_char tld = true
    /\ (2 <= String.length tld <= 3)%nat
    /\ label_char "@" = false.
Proof. apply email_shape. Qed.

Lemma accepted_email_shape_witness :
  otp_email_valid "john.doe@mail.example.com" = true /\
  exists local rest tld,
    "john.doe@mail.example.com" = local +:+ "@" +:+ rest +:+ "." +:+ tld
    /\ local <> "" /\ rest <> ""
    /\ all_chars label_char local = true
    /\ all_chars label_char rest = true
    /\ all_chars Pattern.word_char tld = true
    /\ (2 <= String.length tld <= 3)%nat
    /\ label_char "@" = false.
Proof.
  assert (H : otp_email_valid "john.doe@mail.example.com" = true) by (vm_compute; reflexivity).
  split; [exact H|].
  exact (accepted_email_shape "john.doe@mail.example.com" H).
Defined.

Lemma email_within : classes_within address_char Pattern.email.
Proof. class_within. Qed.

(** X23.  An address the OTP schema accepts consists of letters, digits,
    underscores, dots, dashes and [@] only; an address with any other
    character (a plus sign, a space, a quote, a non-ASCII byte) is
    refused. *)
Theorem accepted_email_alphabet (s : string) :
  (otp_email_valid s = true -> all_chars address_char s = true)
  /\ (all_chars address_char s = false -> otp_email_valid s = false).
Proof.
  assert (H : otp_email_valid s = true -> all_chars address_char s = true).
  { intros Hv. apply otp_email_valid_iff in Hv.
    exact (classes_sound address_char _ s email_within Hv). }
  split; [exact H|].
  intros Hbad. destruct (otp_email_valid s) eqn:E; [|reflexivity].
  rewrite (H eq_refl) in Hbad. discriminate.
Qed.

Lemma accepted_email_alphabet_witness :
  all_chars address_char "first last@example.com" = false /\
  otp_email_valid "first last@example.com" = false.
Proof.
  assert (H : all_chars address_char "first last@example.com" = false) by (vm_compute; reflexivity).
  split; [exact H|].
  exact (proj2 (accepted_email_alphabet "first last@example.com") H).
Defined.

Lemma last_dot_unique (a b x y : string) :
  a +:+ String "." x = b +:+ String "." y ->
  all_chars Pattern.word_char x = true ->
  all_chars Pattern.word_char y = true ->
  x = y.
Proof.
  revert b. induction a as [|c a IH]; intros b Heq Hx Hy.
  - destruct b as [|c' b]; unfold_app.
    + now injection Heq.
    + injection Heq as _ ->. rewrite all_chars_app in Hx. simpl in Hx.
      rewrite andb_false_r in Hx. discriminate.
  - destruct b as [|c' b]; unfold_app.
    + injection Heq as _ <-. rewrite all_chars_app in Hy. simpl in Hy.
      rewrite andb_false_r in Hy. discriminate.
    + injection Heq as _ Heq. now apply (IH b).
Qed.

(** X24.  The last label decides: an address whose part after the last dot
    is made of word characters but is shorter than two or longer than three
    of them (as in [.info] or [.museum]) is refused, whatever precedes
    it. *)
Theorem long_tld_refused (pre tld : string) :
  all_chars Pattern.word_char tld = true ->
  (String.length tld < 2 \/ 3 < String.length tld)%nat ->
  otp_email_valid (pre +:+ "." +:+ tld) = false.
Proof.
  intros Hw Hlen. destruct (otp_email_valid (pre +:+ "." +:+ tld)) eqn:E; [|reflexivity].
  exfalso.
  destruct (email_shape _ E)
    as (local & rest & tld0 & Heq & _ & _ & _ & _ & Hw0 & Hlen0 & _).
  assert (Htld : tld = tld0).
  { apply (last_dot_unique pre (local +:+ "@" +:+ rest)); [|exact Hw|exact Hw0].
    unfold_app. rewrite Heq. rewrite !app_assoc_s. reflexivity. }
  subst tld0. lia.
Qed.

Lemma long_tld_refused_witness :
  all_chars Pattern.word_char "info" = true /\
  (String.length "info" < 2 \/ 3 < String.length "info")%nat /\
  otp_email_valid ("someone@example" +:+ "." +:+ "info") = false.
Proof.
  assert (Hw : all_chars Pattern.word_char "info" = true) by reflexivity.
  assert (Hl : (String.length "info" < 2 \/ 3 < String.length "info")%nat) by (right; simpl; lia).
  split; [exact Hw|]. split; [exact Hl|].
  exact (long_tld_refused "someone@example" "info" Hw Hl).
Defined.

Lemma words_star (s : string) :
  all_chars Pattern.word_char s = true -> matches (Pattern.Star Pattern.w) s.
Proof.
  induction s as [|c s IH]; simpl; intros H; [constructor|].
  apply andb_prop in H as [Hc Hs].
  exact (MStarMore Pattern.w (String c "") s (MClass _ c Hc) (IH Hs)).
Qed.

Lemma words_plus (s : string) :
  all_chars Pattern.word_char s = true -> s <> "" -> matches (Pattern.plus Pattern.w) s.
Proof.
  destruct s as [|c s]; [contradiction|]. simpl. intros H _.
  apply andb_prop in H as [Hc Hs].
  exact (MSeq Pattern.w (Pattern.Star Pattern.w) (String c "") s (MClass _ c Hc) (words_star s Hs)).
Qed.

Lemma words_labels (s : string) :
  all_chars Pattern.word_char s = true -> s <> "" -> matches Pattern.labels s.
Proof.
  intros H Hne. rewrite <- (app_nil_r_s s).
  apply MSeq; [now apply words_plus | constructor].
Qed.

Lemma words_suffix (tld : string) :
  all_chars Pattern.word_char tld = true ->
  (2 <= String.length tld <= 3)%nat ->
  matches Pattern.suffix (String "." tld).
Proof.
  intros H Hlen.
  destruct tld as [|c1 [|c2 [|c3 [|c4 rest]]]]; simpl in Hlen; try lia; simpl in H.
  - apply andb_prop in H as [H1 H2]. apply andb_prop in H2 as [H2 _].
    refine (MSeq _ _ (String "." "") (String c1 (String c2 "")) (MClass _ _ _) _);
      [reflexivity|].
    refine (MSeq _ _ (String c1 "") (String c2 "") (MClass _ _ H1) _).
    rewrite <- (app_nil_r_s (String c2 "")).
    apply MSeq; [now constructor | apply MOrL; constructor].
  - apply andb_prop in H as [H1 H2]. apply andb_prop in H2 as [H2 H3].
    apply andb_prop in H3 as [H3 _].
    refine (MSeq _ _ (String "." "") (String c1 (String c2 (String c3 ""))) (MClass _ _ _) _);
      [reflexivity|].
    refine (MSeq _ _ (String c1 "") (String c2 (String c3 "")) (MClass _ _ H1) _).
    refine (MSeq _ _ (String c2 "") (String c3 "") (MClass _ _ H2) _).
    apply MOrR. now constructor.
Qed.

(** X25.  Plain addresses are accepted: a non-empty local part and a
    non-empty host made of word characters, followed by a dot and two or
    three word characters, pass the OTP schema's email validators. *)
Theorem plain_email_accepted (local host tld : string) :
  all_chars Pattern.word_char local = true -> local <> "" ->
  all_chars Pattern.word_char host = true -> host <> "" ->
  all_chars Pattern.word_char tld = true ->
  (2 <= String.length tld <= 3)%nat ->
  otp_email_valid (local +:+ "@" +:+ host +:+ "." +:+ tld) = true.
Proof.
  intros Hl Hlne Hh Hhne Ht Hlen. apply otp_email_valid_iff.
  apply MSeq; [now apply words_labels|].
  apply (MSeq _ _ (String "@" "") _); [constructor; reflexivity|].
  apply MSeq; [now apply words_labels|].
  change ("." +:+ tld) with (String "." tld).
  rewrite <- (app_nil_r_s (String "." tld)).
  apply MSeq; [now apply words_suffix | constructor].
Qed.

Lemma plain_email_accepted_witness :
  otp_email_valid ("jane_doe" +:+ "@" +:+ "example" +:+ "." +:+ "org") = true.
Proof.
  apply plain_email_accepted; try reflexivity; try discriminate. simpl. lia.
Defined.

(** ** Cookies, the server header, and mail failures *)

Lemma join_contains (sep x : string) (items : list string) :
  In x items -> occurs_in x (JsString.join sep items).
Proof.
  induction items as [|y items IH]; intros Hin; [destruct Hin|].
  destruct items as [|z items].
  - destruct Hin as [->|[]]. exists "", "". simpl. now rewrite app_nil_r_s.
  - change (JsString.join sep (y :: z :: items))
      with (y +:+ sep +:+ JsString.join sep (z :: items)).
    destruct Hin as [->|Hin].
    + exists "", (sep +:+ JsString.join sep (z :: items)). reflexivity.
    + destruct (IH Hin) as (pre & post & ->).
      exists (y +:+ sep +:+ pre), post. now rewrite !app_assoc_s.
Qed.

(** X26.  No cookie is lost in capture: when a resolved response sets
    several cookies, the credential stored for the user contains each of
    them (they are joined with [; ]); if one of them is non-empty, the next
    request for that user carries exactly the stored string as its
    [Cookie] header. *)
Theorem captured_credential_keeps_every_cookie (u : string) (uc : gmap string string)
    (r : response) (items : list string) (x : string) :
  validateStatus (status r) = true ->
  headers r !! "set-cookie" = Some (HArr items) ->
  In x items ->
  exists c, on_response u uc (NetResponse r) !! u = Some c /\ occurs_in x c /\
            (x <> "" ->
             forall hs, on_request u (on_response u uc (NetResponse r)) hs !! "Cookie" = Some c).
Proof.
  intros Hv Hh Hin. rewrite on_response_captured. unfold captured, settle.
  rewrite Hv, Hh. simpl. exists (JsString.join "; " items).
  split; [apply lookup_insert_eq|]. split; [now apply join_contains|].
  intros Hx hs. unfold on_request. rewrite lookup_insert_eq.
  assert (Hne : JsString.truthy (JsString.join "; " items) = true).
  { destruct (join_contains "; " x items Hin) as (pre & post & Heq).
    destruct (JsString.join "; " items); [|reflexivity].
    symmetry in Heq. apply app_eq_nil_s in Heq as [_ Heq].
    apply app_eq_nil_s in Heq as [Heq _]. contradiction. }
  rewrite Hne. apply lookup_insert_eq.
Qed.

Lemma captured_credential_keeps_every_cookie_witness :
  let r := {| status := 200; data := JNull;
              headers := {["set-cookie" := HArr ["session=abc"; "csrf=xyz"]]} |} in
  validateStatus (status r) = true /\
  exists c, on_response "u1" ∅ (NetResponse r) !! "u1" = Some c /\ occurs_in "csrf=xyz" c /\
            ("csrf=xyz" <> "" ->
             forall hs, on_request "u1" (on_response "u1" ∅ (NetResponse r)) hs !! "Cookie" = Some c).
Proof.
  intros r.
  assert (Hv : validateStatus (status r) = true) by reflexivity.
  split; [exact Hv|].
  refine (captured_credential_keeps_every_cookie "u1" ∅ r ["session=abc"; "csrf=xyz"] "csrf=xyz"
            Hv eq_refl _).
  right. left. reflexivity.
Defined.

(** X27.  [uploadPDF] and an upstream 403 without the AirTunes/AirPlay
    signature, in particular one with no server header at all: the caller
    gets 503 with the access-denied message and, as details, the body's
    message or a fixed text; never the port-conflict reply. *)
Theorem upload_403_access_denied (env : environment) (new_ObjectId : list pdf_doc -> string)
    (form_boundary : string) (w : world) (req : request) (f : upload_file) (r : response) :
  req_file req = Some f ->
  status r = 403 ->
  let res := snd (uploadPDF env new_ObjectId form_boundary w req (NetResponse r)) in
  let denied :=
    reply 503
      [ ("error", JStr "AI server access denied. Please ensure the AI server is running and properly configured.");
        ("details", prop (data r) "message" ||| JStr "Forbidden - Check AI server configuration") ] in
  (isAirPlay (headers r) = false -> res = denied)
  /\ (headers r !! "server" = None -> headers r !! "Server" = None -> res = denied)
  /\ (headers r !! "server" = Some (HStr "") ->
        forall s, headers r !! "Server" = Some (HStr s) ->
        occurs_in "AirPlay" s -> res = reply 503 port_conflict_body).
Proof.
  intros Hf Hst. cbv zeta.
  assert (Hres : snd (uploadPDF env new_ObjectId form_boundary w req (NetResponse r)) =
                 if isAirPlay (headers r) then reply 503 port_conflict_body
                 else reply 503
                   [ ("error", JStr "AI server access denied. Please ensure the AI server is running and properly configured.");
                     ("details", prop (data r) "message" ||| JStr "Forbidden - Check AI server configuration") ]).
  { erewrite uploadPDF_rejected; [| exact Hf | unfold settle; rewrite Hst; reflexivity].
    unfold upload_catch. cbn [err_response]. rewrite Hst. reflexivity. }
  rewrite Hres. split; [|split].
  - intros ->. reflexivity.
  - intros H1 H2. unfold isAirPlay, serverHeader, header_or. rewrite H1, H2. reflexivity.
  - intros H1 s H2 Hocc. unfold isAirPlay, serverHeader, header_or. rewrite H1, H2.
    simpl header_truthy. cbv iota.
    assert (Ht : JsString.truthy s = true).
    { destruct s; [|reflexivity]. destruct Hocc as (pre & post & H).
      destruct pre; discriminate H. }
    rewrite Ht. simpl header_includes.
    apply includes_iff in Hocc. rewrite Hocc, orb_true_r. reflexivity.
Qed.

Lemma upload_403_access_denied_witness :
  let env := {| env_AI_SERVER_URL := None; env_NODEMAILER_USER := None;
                env_NODEMAILER_PASS := None |} in
  let w := {| gw := gateway_init; built := []; pdfs := []; queries := [] |} in
  let f := {| file_filename := "x-1.pdf"; file_originalname := "x.pdf";
              file_path := "uploads/x-1.pdf" |} in
  let req := {| req_user := "userA"; req_file := Some f; req_body := JUndefined |} in
  let r := {| status := 403; data := JObj [ ("message", JStr "blocked") ]; headers := ∅ |} in
  status r = 403 /\
  snd (uploadPDF env (fun _ => "id1") "b0" w req (NetResponse r)) =
  reply 503
    [ ("error", JStr "AI server access denied. Please ensure the AI server is running and properly configured.");
      ("details", JStr "blocked") ].
Proof.
  intros env w f req r. split; [reflexivity|].
  exact (proj1 (proj2 (upload_403_access_denied env (fun _ => "id1") "b0" w req f r eq_refl eq_refl))
           eq_refl eq_refl).
Defined.

(** X28.  When [verify()] fails, [mailSender] sends nothing and rejects
    with a text chosen by the failure's code: the network text for
    [ENOTFOUND] and [EDNS], the connection text for [ETIMEDOUT] and
    [ECONNREFUSED], and only then the authentication text for SMTP reply
    535.  In these three classes the low-level message is not passed on. *)
Theorem mailSender_verify_failure (env : environment) (net : Mail.smtp) (email : jsval)
    (subject body : string) (e : Mail.failure) :
  Mail.invalid_email email = false ->
  Mail.credentials_missing env = false ->
  Mail.smtp_verify net = Some e ->
  let out := Mail.mailSender env net email subject body in
  existsb Mail.is_send (snd out) = false
  /\ (Mail.f_code e = Some "ENOTFOUND" \/ Mail.f_code e = Some "EDNS" ->
        fst out = inl "Network error: Unable to connect to email server. Please check your internet connection.")
  /\ (Mail.f_code e = Some "ETIMEDOUT" \/ Mail.f_code e = Some "ECONNREFUSED" ->
        fst out = inl "Connection error: Unable to reach email server. Please try again later.")
  /\ (no_network_code e -> Mail.f_responseCode e = Some 535 ->
        fst out = inl "Email authentication failed. Please check email configuration.")
  /\ (no_network_code e -> Mail.f_responseCode e <> Some 535 ->
        fst out = inl ("Failed to send email: " +:+ Mail.f_message e)).
Proof.
  intros Hinv Hc Hv. cbv zeta. unfold Mail.mailSender, Mail.createTransporter.
  rewrite Hinv, Hc, Hv. cbn [fst snd].
  split; [reflexivity|]. unfold Mail.rethrow, Mail.code_is.
  split; [|split; [|split]].
  - intros [-> | ->]; reflexivity.
  - intros [-> | ->]; reflexivity.
  - intros (H1 & H2 & H3 & H4) H535.
    rewrite !bool_decide_eq_false_2 by assumption. simpl.
    now rewrite bool_decide_eq_true_2.
  - intros (H1 & H2 & H3 & H4) H535.
    rewrite !bool_decide_eq_false_2 by assumption. reflexivity.
Qed.

Lemma mailSender_verify_failure_witness :
  let env := {| env_AI_SERVER_URL := None; env_NODEMAILER_USER := Some "bot@example.com";
                env_NODEMAILER_PASS := Some "wrong" |} in
  let e := {| Mail.f_message := "Invalid login: 535-5.7.8 Username and Password not accepted";
              Mail.f_code := Some "EAUTH"; Mail.f_responseCode := Some 535 |} in
  let net := {| Mail.smtp_verify := Some e; Mail.smtp_sendMail := fun _ => inr "<id-1>" |} in
  Mail.invalid_email (JStr "a@b.io") = false /\
  Mail.credentials_missing env = false /\
  no_network_code e /\
  fst (Mail.mailSender env net (JStr "a@b.io") "Hello" "<p>Hi</p>") =
  inl "Email authentication failed. Please check email configuration.".
Proof.
  intros env e net.
  assert (H1 : Mail.invalid_email (JStr "a@b.io") = false) by reflexivity.
  assert (H2 : Mail.credentials_missing env = false) by reflexivity.
  assert (H3 : no_network_code e) by (repeat split; discriminate).
  split; [exact H1|]. split; [exact H2|]. split; [exact H3|].
  exact (proj1 (proj2 (proj2 (proj2
           (mailSender_verify_failure env net (JStr "a@b.io") "Hello" "<p>Hi</p>" e H1 H2 eq_refl))))
           H3 eq_refl).
Defined.
